(** * taqweem: the calendar server's in-memory event cache

    A shallow embedding of the [DataCache] class of [src/server.js] and of
    the [GET /api/events] handler, with the properties the specification
    states about them.

    Conventions of the embedding.
    - A JavaScript object holding an event is a finite map from property
      names to JSON values ([gmap string Value]); a property that is not in
      the map reads as [undefined].
    - JSON numbers are kept to the integers, of a size that prints in plain
      decimal notation (below 10^21).
    - A string is the sequence of its bytes in UTF-8; a conversion that
      throws a [TypeError] has no value ([None]).
    - Arrays of events ([this.events], the buckets of [this.eventsByDate])
      are lists; event objects are never mutated in place by the server, so
      the value held by two arrays is compared by content.
    - [this.eventsByDate] is a plain object: a read of a name it does not own
      falls through to [Object.prototype].
    - The clock is an argument: milliseconds since the epoch, as [Z].  The
      host's local time zone is UTC, so that [setDate(getDate() + n)] moves
      the instant by [n] whole days.
    - What the process emits (socket sends, webhook calls) is appended to the
      [output] field carried with the cache. *)

From Stdlib Require Import ZArith String Ascii List Lia Sorting.Sorted.
From stdpp Require Import base gmap strings list pretty.

Open Scope string_scope.
Open Scope list_scope.
Open Scope Z_scope.

(** ** JSON values and the JavaScript conversions the server relies on *)

#[warnings="-register-all"]
Inductive Value : Type :=
| VNull
| VBool (b : bool)
| VNum (n : Z)
| VStr (s : string)
| VArr (items : list Value)
| VObj (props : list (string * Value)).

(** An event object. *)
Abbreviation Event := (gmap string Value).

(** [ToBoolean]; [None] is [undefined]. *)
Definition truthy (v : option Value) : bool :=
  match v with
  | None => false
  | Some VNull => false
  | Some (VBool b) => b
  | Some (VNum n) => negb (n =? 0)
  | Some (VStr s) => negb (String.eqb s "")
  | Some (VArr _) => true
  | Some (VObj _) => true
  end.

(** [Array.prototype.join(",")] over already converted items. *)
Fixpoint join_comma (l : list string) : string :=
  match l with
  | [] => ""
  | [s] => s
  | s :: rest => s +:+ "," +:+ join_comma rest
  end.

(** [f] on every item, or no value as soon as one has none. *)
Definition traverse {A B} (f : A -> option B) : list A -> option (list B) :=
  fix go l :=
    match l with
    | [] => Some []
    | x :: rest =>
        match f x with
        | None => None
        | Some y => option_map (cons y) (go rest)
        end
    end.

(** An object read from JSON has an own property [name]. *)
Definition hasOwn (name : string) (props : list (string * Value)) : bool :=
  existsb (fun p => String.eqb (fst p) name) props.

(** [ToString] on a JSON value, by way of [ToPrimitive].  An array joins
    its converted items (with [null] as the empty string).  Any other object
    is ["[object Object]"], the result of [Object.prototype.toString], unless
    it has an own [toString] property: a value read from JSON is never
    callable, [valueOf] returns the object itself, and the conversion throws
    a [TypeError] ([None]). *)
Fixpoint ToString (v : Value) : option string :=
  match v with
  | VNull => Some "null"
  | VBool true => Some "true"
  | VBool false => Some "false"
  | VNum n => Some (pretty n)
  | VStr s => Some s
  | VArr items =>
      option_map join_comma
        (traverse (fun x => match x with VNull => Some "" | _ => ToString x end) items)
  | VObj props => if hasOwn "toString" props then None else Some "[object Object]"
  end.

(** The property key [obj[v]] reads or writes, and the text a template
    literal inserts for [v]; [None] when the conversion throws. *)
Definition propertyKey (v : option Value) : option string :=
  match v with
  | None => Some "undefined"
  | Some x => ToString x
  end.

(** A computation that may throw has a value. *)
Definition hasValue {A} (o : option A) : bool :=
  match o with
  | Some _ => true
  | None => false
  end.

(** The conversion of [v] to a primitive does not throw. *)
Definition convertible (v : option Value) : bool := hasValue (propertyKey v).

(** [a === b] where [b] was read from another request than [a]: two objects
    or arrays are then never the same reference. *)
Definition strict_equal (a b : option Value) : bool :=
  match a, b with
  | None, None => true
  | Some VNull, Some VNull => true
  | Some (VBool x), Some (VBool y) => Bool.eqb x y
  | Some (VNum x), Some (VNum y) => x =? y
  | Some (VStr x), Some (VStr y) => String.eqb x y
  | _, _ => false
  end.

(** [v === s] for a string [s]. *)
Definition is_string (v : option Value) (s : string) : bool :=
  match v with
  | Some (VStr x) => String.eqb x s
  | _ => false
  end.

(** ** Strings: letter case and [includes] *)

Definition lower_ascii (c : ascii) : ascii :=
  let n := nat_of_ascii c in
  if (Nat.leb 65 n && Nat.leb n 90)%bool then ascii_of_nat (n + 32) else c.

(** Lower case for the letters A to Z, every other byte as it is. *)
Fixpoint asciiLowerCase (s : string) : string :=
  match s with
  | EmptyString => EmptyString
  | String c rest => String (lower_ascii c) (asciiLowerCase rest)
  end.

(** Text of the ASCII range only. *)
Fixpoint isAscii (s : string) : bool :=
  match s with
  | EmptyString => true
  | String c rest => (nat_of_ascii c <? 128)%nat && isAscii rest
  end.

(** [s.includes(q)]. *)
Fixpoint includes (s q : string) : bool :=
  if String.prefix q s then true
  else match s with
       | EmptyString => false
       | String _ rest => includes rest q
       end.

(** ** Calendar arithmetic behind [Date.prototype.toISOString] *)

Definition msPerDay : Z := 86400000.

(** Year, month and day of the [z]-th day after 1970-01-01 (proleptic
    Gregorian calendar). *)
Definition civil_from_days (z : Z) : Z * Z * Z :=
  let z := z + 719468 in
  let era := z / 146097 in
  let doe := z - era * 146097 in
  let yoe := (doe - doe / 1460 + doe / 36524 - doe / 146096) / 365 in
  let y := yoe + era * 400 in
  let doy := doe - (365 * yoe + yoe / 4 - yoe / 100) in
  let mp := (5 * doy + 2) / 153 in
  let d := doy - (153 * mp + 2) / 5 + 1 in
  let m := if mp <? 10 then mp + 3 else mp - 9 in
  (if m <=? 2 then y + 1 else y, m, d).

Definition days_from_civil (y m d : Z) : Z :=
  let y := if m <=? 2 then y - 1 else y in
  let era := y / 400 in
  let yoe := y - era * 400 in
  let doy := (153 * (if 2 <? m then m - 3 else m + 9) + 2) / 5 + d - 1 in
  let doe := yoe * 365 + yoe / 4 - yoe / 100 + doy in
  era * 146097 + doe - 719468.

Definition digit (n : Z) : ascii := ascii_of_nat (48 + Z.to_nat (n mod 10)).

Definition pad2 (n : Z) : string :=
  String (digit (n / 10)) (String (digit n) "").

Definition pad3 (n : Z) : string := String (digit (n / 100)) (pad2 n).

Definition pad4 (n : Z) : string := String (digit (n / 1000)) (pad3 n).

(** [d.toISOString().split('T')[0]] for an instant on day [day]; years
    0000 to 9999. *)
Definition isoDate (day : Z) : string :=
  let '(y, m, d) := civil_from_days day in
  pad4 y +:+ "-" +:+ pad2 m +:+ "-" +:+ pad2 d.

(** The day an instant falls on. *)
Definition dayOf (t : Z) : Z := t / msPerDay.

(** [new Date(t).toISOString()]. *)
Definition toISOString (t : Z) : string :=
  let ms := t mod msPerDay in
  isoDate (dayOf t) +:+ "T" +:+ pad2 (ms / 3600000) +:+ ":" +:+ pad2 (ms / 60000 mod 60)
    +:+ ":" +:+ pad2 (ms / 1000 mod 60) +:+ "." +:+ pad3 (ms mod 1000) +:+ "Z".

(** [TimeClip]: a time value is at most 8.64e15 ms away from the epoch;
    beyond that the date is invalid ([None]). *)
Definition timeClip (t : Z) : option Z :=
  if Z.abs t <=? 8640000000000000 then Some t else None.

(** ** The runtime the server is written against

    [new Date(text)], [String.prototype.toLowerCase], [JSON.stringify] and
    [crypto.createHmac] belong to the JavaScript engine and to Node; the
    cache is verified for any of them. *)

Record Payload := {
  payload_event : string;
  payload_data : Event;
  payload_timestamp : string;
}.

Class Runtime := {
  (** [new Date(text).getTime()]; [None] is an invalid date (NaN). *)
  Date_parse : string -> option Z;
  (** [s.toLowerCase()], the Unicode lower-case mapping.  On ASCII text it
      changes the letters A to Z and nothing else. *)
  toLowerCase : string -> string;
  toLowerCase_ascii : forall s, isAscii s = true -> toLowerCase s = asciiLowerCase s;
  JSON_stringify : Payload -> string;
  (** [createHmac('sha256', key).update(text).digest('hex')]. *)
  createHmac_sha256 : string -> string -> string;
}.

(** ** The cache *)

Module Webhook.
Record t := {
  id : string;
  url : string;
  events : list string;
  secret : option string;
  createdAt : string;
}.
End Webhook.

Record WsClient := { client_id : nat; readyState_OPEN : bool }.

(** The [data] of a socket message: one object or an array of them. *)
Inductive Data :=
| DObj (e : Event)
| DArr (l : list Event).

(** The request [callWebhook] prepares and logs. *)
Record Request := {
  req_url : string;
  req_payload : Payload;
  req_headers : list (string * string);
}.

Inductive Output :=
| WsSend (client : nat) (type : string) (data : Data)
| WebhookCalled (r : Request).

Record DataCache := {
  events : list Event;
  eventsByDate : gmap string (list Event);
  webhooks : list Webhook.t;
  wsClients : list WsClient;
  lastModified_events : option Z;
  (** a flush is scheduled *)
  writeTimer : bool;
  output : list Output;
}.

Definition with_events (l : list Event) (c : DataCache) : DataCache :=
  {| events := l; eventsByDate := eventsByDate c; webhooks := webhooks c;
     wsClients := wsClients c; lastModified_events := lastModified_events c;
     writeTimer := writeTimer c; output := output c |}.

Definition with_eventsByDate (m : gmap string (list Event)) (c : DataCache) : DataCache :=
  {| events := events c; eventsByDate := m; webhooks := webhooks c;
     wsClients := wsClients c; lastModified_events := lastModified_events c;
     writeTimer := writeTimer c; output := output c |}.

Definition with_lastModified (t : option Z) (c : DataCache) : DataCache :=
  {| events := events c; eventsByDate := eventsByDate c; webhooks := webhooks c;
     wsClients := wsClients c; lastModified_events := t;
     writeTimer := writeTimer c; output := output c |}.

Definition with_webhooks (l : list Webhook.t) (c : DataCache) : DataCache :=
  {| events := events c; eventsByDate := eventsByDate c; webhooks := l;
     wsClients := wsClients c; lastModified_events := lastModified_events c;
     writeTimer := writeTimer c; output := output c |}.

Definition emit (o : list Output) (c : DataCache) : DataCache :=
  {| events := events c; eventsByDate := eventsByDate c; webhooks := webhooks c;
     wsClients := wsClients c; lastModified_events := lastModified_events c;
     writeTimer := writeTimer c; output := output c ++ o |}.

(** [queueWrite]: the pending timer, if any, is replaced by a new one. *)
Definition queueWrite (c : DataCache) : DataCache :=
  {| events := events c; eventsByDate := eventsByDate c; webhooks := webhooks c;
     wsClients := wsClients c; lastModified_events := lastModified_events c;
     writeTimer := true; output := output c |}.

(** The cache after the constructor and a load of an empty data file. *)
Definition emptyCache : DataCache :=
  {| events := []; eventsByDate := ∅; webhooks := []; wsClients := [];
     lastModified_events := None; writeTimer := false; output := [] |}.

(** What a call leaves behind: a returned value, or a thrown [TypeError];
    either way with the cache as the call left it. *)
Inductive Outcome (A : Type) :=
| Returned (a : A) (c : DataCache)
| Threw (c : DataCache).
Arguments Returned {A} a c.
Arguments Threw {A} c.

Definition cacheOf {A} (o : Outcome A) : DataCache :=
  match o with Returned _ c => c | Threw c => c end.

(** *** Reading a property of [this.eventsByDate]

    The index is created as [{}], so a name it does not own is looked up in
    [Object.prototype]. *)
Definition Object_prototype_names : list string :=
  ["constructor"; "__proto__"; "hasOwnProperty"; "isPrototypeOf";
   "propertyIsEnumerable"; "toString"; "toLocaleString"; "valueOf";
   "__defineGetter__"; "__defineSetter__"; "__lookupGetter__"; "__lookupSetter__"].

Definition inherited (k : string) : bool :=
  existsb (String.eqb k) Object_prototype_names.

Inductive Slot :=
| Own (l : list Event)
| Inherited
| Absent.

Definition readSlot (idx : gmap string (list Event)) (k : string) : Slot :=
  match idx !! k with
  | Some l => Own l
  | None => if inherited k then Inherited else Absent
  end.

(** The key of the bucket an event belongs to, [eventsByDate[event.date]];
    [None] when the date does not convert to a property key. *)
Definition dateKey (e : Event) : option string := propertyKey (e !! "date").

(** [if (!idx[e.date]) idx[e.date] = []; idx[e.date].push(e)].  [None] is a
    [TypeError]: the date does not convert to a key, or the key names an
    inherited value, which is truthy and has no [push]. *)
Definition indexPush (idx : gmap string (list Event)) (e : Event)
  : option (gmap string (list Event)) :=
  match dateKey e with
  | None => None
  | Some k =>
      match readSlot idx k with
      | Own l => Some (<[k := l ++ [e]]> idx)
      | Absent => Some (<[k := [e]]> idx)
      | Inherited => None
      end
  end.

(** [e => e.id !== eventId] *)
Definition otherId (eventId : string) (e : Event) : bool :=
  negb (is_string (e !! "id") eventId).

(** [if (idx[k]) idx[k] = idx[k].filter(e => e.id !== eventId)]; an inherited
    value is truthy and has no [filter]. *)
Definition indexRemove (idx : gmap string (list Event)) (k eventId : string)
  : option (gmap string (list Event)) :=
  match readSlot idx k with
  | Own l => Some (<[k := List.filter (otherId eventId) l]> idx)
  | Absent => Some idx
  | Inherited => None
  end.

(** The same for the bucket of [e]: [idx[e.date]] is read first, and throws
    when the date does not convert to a key. *)
Definition indexRemoveOf (idx : gmap string (list Event)) (e : Event) (eventId : string)
  : option (gmap string (list Event)) :=
  match dateKey e with
  | None => None
  | Some k => indexRemove idx k eventId
  end.

(** [this.events.findIndex(e => e.id === eventId)] *)
Fixpoint findIndex (eventId : string) (l : list Event) : option nat :=
  match l with
  | [] => None
  | e :: rest =>
      if is_string (e !! "id") eventId then Some 0%nat
      else option_map S (findIndex eventId rest)
  end.



(** [Array.prototype.slice(from, to)]; a negative bound counts from the end. *)
Definition slice {A} (l : list A) (from to : Z) : list A :=
  let len := Z.of_nat (length l) in
  let clamp i := if i <? 0 then Z.max (len + i) 0 else Z.min i len in
  take (Z.to_nat (clamp to - clamp from)) (drop (Z.to_nat (clamp from)) l).

(** [Array.prototype.forEach] with a callback that may throw ([None]) and
    otherwise pushes a value to the result or leaves it. *)
Fixpoint collectThrowing {A B} (f : A -> option (option B)) (l : list A)
  : option (list B) :=
  match l with
  | [] => Some []
  | x :: rest =>
      match f x with
      | None => None
      | Some pushed =>
          match collectThrowing f rest with
          | None => None
          | Some more =>
              Some (match pushed with Some y => y :: more | None => more end)
          end
      end
  end.

(** [Array.prototype.filter] with a callback that may throw. *)
Fixpoint filterThrowing {A} (f : A -> option bool) (l : list A) : option (list A) :=
  match l with
  | [] => Some []
  | x :: rest =>
      match f x with
      | None => None
      | Some b =>
          match filterThrowing f rest with
          | None => None
          | Some kept => Some (if b then x :: kept else kept)
          end
      end
  end.

(** The parameters of [GET /api/events] and its answer. *)

Module Query.
(** [req.query]; [month] and [year] are given as numbers, [limit] and
    [offset] after their defaults (100 and 0) and [Number()]. *)
Record t := {
  start : option string;
  stop : option string;
  month : option Z;
  year : option Z;
  type : option string;
  search : option string;
  limit : Z;
  offset : Z;
}.
End Query.

Record Page := {
  page_events : list Event;
  page_total : Z;
  page_limit : Z;
  page_offset : Z;
  page_hasMore : bool;
}.

Section Cache.
Context {rt : Runtime}.

(** *** Notification fan-out *)

Definition broadcast (type : string) (data : Data) (c : DataCache) : DataCache :=
  emit (List.map (fun cl => WsSend (client_id cl) type data)
          (List.filter readyState_OPEN (wsClients c))) c.

Definition secretGiven (s : option string) : bool :=
  match s with
  | Some k => negb (String.eqb k "")
  | None => false
  end.

Definition callWebhook (now : Z) (webhook : Webhook.t) (eventType : string) (data : Event)
  : Request :=
  let payload := {| payload_event := eventType; payload_data := data;
                    payload_timestamp := toISOString now |} in
  let headers := [("Content-Type", "application/json")] in
  let headers :=
    match Webhook.secret webhook with
    | Some key =>
        if secretGiven (Some key)
        then headers ++ [("X-Calendar-Signature",
                          createHmac_sha256 key (JSON_stringify payload))]
        else headers
    | None => headers
    end in
  {| req_url := Webhook.url webhook; req_payload := payload; req_headers := headers |}.

(** [w.events.includes(eventType) || w.events.includes('*')] *)
Definition subscribed (eventType : string) (w : Webhook.t) : bool :=
  existsb (String.eqb eventType) (Webhook.events w)
  || existsb (String.eqb "*") (Webhook.events w).

Definition relevantWebhooks (eventType : string) (c : DataCache) : list Webhook.t :=
  List.filter (subscribed eventType) (webhooks c).

Definition triggerWebhooks (now : Z) (eventType : string) (data : Event) (c : DataCache)
  : DataCache :=
  emit (List.map (fun w => WebhookCalled (callWebhook now w eventType data))
          (relevantWebhooks eventType c)) c.

(** [randomId] is [crypto.randomBytes(16).toString('hex')]. *)
Definition addWebhook (now : Z) (randomId url : string) (types : list string)
    (secret : option string) (c : DataCache) : Webhook.t * DataCache :=
  let newWebhook := {| Webhook.id := randomId; Webhook.url := url;
                       Webhook.events := types; Webhook.secret := secret;
                       Webhook.createdAt := toISOString now |} in
  (newWebhook, with_webhooks (webhooks c ++ [newWebhook]) c).

Definition removeWebhook (id : string) (c : DataCache) : DataCache :=
  with_webhooks (List.filter (fun w => negb (String.eqb (Webhook.id w) id)) (webhooks c)) c.

(** *** Mutations *)

Definition defaultNotifications : Value :=
  VObj [("push", VArr [VStr "15m"]); ("email", VArr [VStr "1h"]); ("sms", VArr [])].

(** [{ id: Date.now().toString(), ...eventData, createdAt, notifications }] *)
Definition newEvent (now : Z) (eventData : Event) : Event :=
  <["notifications" :=
      if truthy (eventData !! "notifications")
      then default defaultNotifications (eventData !! "notifications")
      else defaultNotifications]>
    (<["createdAt" := VStr (toISOString now)]>
       (eventData ∪ {["id" := VStr (pretty now)]})).

Definition addEvent (now : Z) (eventData : Event) (c : DataCache) : Outcome Event :=
  let e := newEvent now eventData in
  let c := with_events (events c ++ [e]) c in
  match indexPush (eventsByDate c) e with
  | None => Threw c
  | Some idx =>
      let c := with_eventsByDate idx c in
      let c := broadcast "event-added" (DObj e) c in
      let c := triggerWebhooks now "event.created" e c in
      Returned e (queueWrite c)
  end.

(** [{ ...oldEvent, ...updates, id: eventId, updatedAt }] *)
Definition mergeEvent (now : Z) (eventId : string) (oldEvent updates : Event) : Event :=
  <["updatedAt" := VStr (toISOString now)]>
    (<["id" := VStr eventId]> (updates ∪ oldEvent)).

(** [oldEvent.date !== updatedEvent.date].  Without a [date] among the
    updates the merged event reads back the very value of the old one. *)
Definition dateChanged (oldEvent updates : Event) : bool :=
  match updates !! "date" with
  | None => false
  | Some v => negb (strict_equal (oldEvent !! "date") (Some v))
  end.

(** [null] is [None]. *)
Definition updateEvent (now : Z) (eventId : string) (updates : Event) (c : DataCache)
  : Outcome (option Event) :=
  match findIndex eventId (events c) with
  | None => Returned None c
  | Some index =>
      match events c !! index with
      | None => Returned None c
      | Some oldEvent =>
          let updatedEvent := mergeEvent now eventId oldEvent updates in
          let c := with_events (<[index := updatedEvent]> (events c)) c in
          let finish c :=
            let c := broadcast "event-updated" (DObj updatedEvent) c in
            let c := triggerWebhooks now "event.updated" updatedEvent c in
            Returned (Some updatedEvent) (queueWrite c) in
          if dateChanged oldEvent updates then
            match indexRemoveOf (eventsByDate c) oldEvent eventId with
            | None => Threw c
            | Some idx =>
                let c := with_eventsByDate idx c in
                match indexPush idx updatedEvent with
                | None => Threw c
                | Some idx => finish (with_eventsByDate idx c)
                end
            end
          else finish c
      end
  end.

Definition deleteEvent (now : Z) (eventId : string) (c : DataCache) : Outcome bool :=
  match findIndex eventId (events c) with
  | None => Returned false c
  | Some index =>
      match events c !! index with
      | None => Returned false c
      | Some event =>
          let c := with_events (delete index (events c)) c in
          match indexRemoveOf (eventsByDate c) event eventId with
          | None => Threw c
          | Some idx =>
              let c := with_eventsByDate idx c in
              let c := broadcast "event-deleted" (DObj {["id" := VStr eventId]}) c in
              let c := triggerWebhooks now "event.deleted" {["id" := VStr eventId]} c in
              Returned true (queueWrite c)
          end
      end
  end.

(** *** Persistence

    The data file is kept as the document [JSON.parse] yields: the [events]
    array, if any, and the [lastModified] stamp. *)

Record DataFile := {
  file_events : option (list Event);
  file_lastModified : string;
}.

(** The [forEach] of [loadEvents]; [false] when a [push] threw, with the
    index as far as it was built. *)
Fixpoint indexAll (l : list Event) (idx : gmap string (list Event))
  : gmap string (list Event) * bool :=
  match l with
  | [] => (idx, true)
  | e :: rest =>
      match indexPush idx e with
      | None => (idx, false)
      | Some idx' => indexAll rest idx'
      end
  end.

(** [file] is [None] when reading or parsing the file fails.  Any exception
    ends in the [catch] branch, which empties [this.events]. *)
Definition loadEvents (now : Z) (file : option DataFile) (c : DataCache) : DataCache :=
  match file with
  | None => with_events [] c
  | Some parsed =>
      let l := default [] (file_events parsed) in
      let c := with_lastModified (Some now) (with_events l c) in
      let '(idx, completed) := indexAll l ∅ in
      let c := with_eventsByDate idx c in
      if completed then c else with_events [] c
  end.


(** *** Queries *)

(** [this.eventsByDate[dateStr] || []] for a date string. *)
Definition bucket (c : DataCache) (dateStr : string) : list Event :=
  default [] (eventsByDate c !! dateStr).


(** [for (d = from; d <= stop; d.setDate(d.getDate() + 1))], collecting the
    bucket of each day; the instants are taken within the years 0000 to 9999,
    where [isoDate] is the date text of [toISOString]. *)
Fixpoint walkDays (fuel : nat) (c : DataCache) (d stop : Z) : list Event :=
  match fuel with
  | O => []
  | S fuel =>
      if d <=? stop
      then bucket c (isoDate (dayOf d)) ++ walkDays fuel c (d + msPerDay) stop
      else []
  end.

(** Iterations the loop can take between two instants. *)
Definition daysBetween (from stop : Z) : nat :=
  Z.to_nat ((stop - from) / msPerDay + 1).




Definition getEventsInRange (startDate endDate : string) (c : DataCache) : list Event :=
  match Date_parse startDate, Date_parse endDate with
  | Some from, Some stop => walkDays (daysBetween from stop) c from stop
  | _, _ => []
  end.

Definition getEventsByType (type : string) (c : DataCache) : list Event :=
  List.filter (fun e => is_string (e !! "type") type) (events c).

(** [v.toLowerCase().includes(q)]; [None] is the [TypeError] of a value
    without [toLowerCase]. *)
Definition lowerIncludes (v : option Value) (q : string) : option bool :=
  match v with
  | Some (VStr s) => Some (includes (toLowerCase s) q)
  | _ => None
  end.

(** The callback of [searchEvents]:
    [title.. || (description && description..) || type..]. *)
Definition matchesQuery (lowerQuery : string) (e : Event) : option bool :=
  match lowerIncludes (e !! "title") lowerQuery with
  | None => None
  | Some true => Some true
  | Some false =>
      let byType := lowerIncludes (e !! "type") lowerQuery in
      if truthy (e !! "description") then
        match lowerIncludes (e !! "description") lowerQuery with
        | None => None
        | Some true => Some true
        | Some false => byType
        end
      else byType
  end.

(** [None] when the callback throws. *)
Definition searchEvents (query : string) (c : DataCache) : option (list Event) :=
  filterThrowing (matchesQuery (toLowerCase query)) (events c).

(** One entry of the result of [getEventsNeedingReminders]. *)
Definition reminderOf (now : Z) (e : Event) (eventTime : Z) : Event :=
  <["notificationTime" := VStr (toISOString now)]>
    (<["minutesUntil" := VNum ((eventTime - now) / 60000)]> e).

(** The instant of an event, [new Date(`${date}T${time}`)]: the outer
    [None] is the [TypeError] of a date or time the template literal cannot
    convert, the inner one an invalid date. *)
Definition eventTimeOf (e : Event) : option (option Z) :=
  match propertyKey (e !! "date"), propertyKey (e !! "time") with
  | Some date, Some time => Some (Date_parse (date +:+ "T" +:+ time))
  | _, _ => None
  end.

(** [checkTime]: [new Date(now.getTime() + minutesBefore * 60000)], an
    invalid date when the sum is out of range. *)
Definition checkTimeOf (now minutesBefore : Z) : option Z :=
  timeClip (now + minutesBefore * 60000).

(** The callback of the [forEach]: [None] when it throws, [Some None] when
    it pushes nothing.  A comparison with an invalid date is false. *)
Definition needsReminder (now minutesBefore : Z) (e : Event) : option (option Event) :=
  if truthy (e !! "date") && truthy (e !! "time") then
    match eventTimeOf e with
    | None => None
    | Some eventTime =>
        Some (match eventTime, checkTimeOf now minutesBefore with
              | Some eventTime, Some checkTime =>
                  if (now <? eventTime) && (eventTime <=? checkTime)
                  then Some (reminderOf now e eventTime)
                  else None
              | _, _ => None
              end)
    end
  else Some None.

(** [None] when the scan throws. *)
Definition getEventsNeedingReminders (now minutesBefore : Z) (c : DataCache)
  : option (list Event) :=
  collectThrowing (needsReminder now minutesBefore) (events c).

(** The body of the one-minute [notificationChecker] timer; an exception of
    the scan is caught and logged. *)
Definition notificationChecker (now : Z) (c : DataCache) : DataCache :=
  match getEventsNeedingReminders now 15 c with
  | None => c
  | Some [] => c
  | Some pending =>
      let c := broadcast "reminders-due" (DArr pending) c in
      fold_left (fun c e => triggerWebhooks now "event.reminder" e c) pending c
  end.

(** *** The [GET /api/events] handler *)

(** A query parameter that is present and not the empty string. *)
Definition given (p : option string) : option string :=
  match p with
  | Some s => if String.eqb s "" then None else Some s
  | None => None
  end.

(** [String(month).padStart(2, '0')] *)
Definition padStart2 (s : string) : string :=
  match s with
  | EmptyString => "00"
  | String c EmptyString => String "0" s
  | _ => s
  end.

(** The day of [new Date(year, month, 0)]: the last day of month [month]. *)
Definition lastDayOfMonth (year month : Z) : Z :=
  let year := if (0 <=? year) && (year <=? 99) then 1900 + year else year in
  days_from_civil (year + month / 12) (month mod 12 + 1) 1 - 1.

(** The events the date filters select. *)
Definition dateFiltered (q : Query.t) (c : DataCache) : list Event :=
  match given (Query.start q), given (Query.stop q) with
  | Some s, Some e => getEventsInRange s e c
  | _, _ =>
      match Query.month q, Query.year q with
      | Some m, Some y =>
          getEventsInRange (pretty y +:+ "-" +:+ padStart2 (pretty m) +:+ "-01")
            (isoDate (lastDayOfMonth y m)) c
      | _, _ => events c
      end
  end.

(** The list before pagination; [None] is the handler's 500 answer. *)
Definition filteredEvents (q : Query.t) (c : DataCache) : option (list Event) :=
  let events := dateFiltered q c in
  let events :=
    match given (Query.type q) with
    | Some type => List.filter (fun e => is_string (e !! "type") type) events
    | None => events
    end in
  match given (Query.search q) with
  | Some search => searchEvents search c
  | None => Some events
  end.

Definition listEvents (q : Query.t) (c : DataCache) : option Page :=
  match filteredEvents q c with
  | None => None
  | Some events =>
      let total := Z.of_nat (length events) in
      Some {| page_events := slice events (Query.offset q) (Query.offset q + Query.limit q);
              page_total := total;
              page_limit := Query.limit q;
              page_offset := Query.offset q;
              page_hasMore := Query.offset q + Query.limit q <? total |}
  end.

End Cache.

(** ** A reference runtime

    ISO 8601 date and date-time forms read in UTC, lower case for the ASCII
    letters, a compact JSON printer, and a digest left symbolic.  It serves
    to run the cache on examples written in ASCII. *)

Definition digitValue (c : ascii) : option Z :=
  let n := nat_of_ascii c in
  if (Nat.leb 48 n && Nat.leb n 57)%bool then Some (Z.of_nat n - 48) else None.

Fixpoint digitsValue (s : string) (acc : Z) : option Z :=
  match s with
  | EmptyString => Some acc
  | String c rest =>
      match digitValue c with
      | Some d => digitsValue rest (10 * acc + d)
      | None => None
      end
  end.

(** The number written in the [len] characters from position [from]. *)
Definition numberAt (s : string) (from len : nat) : option Z :=
  let t := substring from len s in
  if Nat.eqb (String.length t) len then digitsValue t 0 else None.

Definition charAt (s : string) (i : nat) (c : ascii) : bool :=
  match String.get i s with
  | Some x => Ascii.eqb x c
  | None => false
  end.

(** [YYYY-MM-DD]: midnight UTC of that day. *)
Definition isoParseDate (s : string) : option Z :=
  y ← numberAt s 0 4;
  m ← numberAt s 5 2;
  d ← numberAt s 8 2;
  if charAt s 4 "-" && charAt s 7 "-" && (1 <=? m) && (m <=? 12) && (1 <=? d) && (d <=? 31)
  then Some ((days_from_civil y m 1 + d - 1) * msPerDay)
  else None.

(** [YYYY-MM-DD] or [YYYY-MM-DDTHH:MM]. *)
Definition isoParse (s : string) : option Z :=
  match String.length s with
  | 10%nat => isoParseDate s
  | 16%nat =>
      day ← isoParseDate (substring 0 10 s);
      h ← numberAt s 11 2;
      mi ← numberAt s 14 2;
      if charAt s 10 "T" && charAt s 13 ":" && (h <=? 23) && (mi <=? 59)
      then Some (day + h * 3600000 + mi * 60000)
      else None
  | _ => None
  end.

Definition quoted (s : string) : string :=
  let q := String (ascii_of_nat 34) EmptyString in
  q +:+ s +:+ q.

Fixpoint stringifyValue (v : Value) : string :=
  match v with
  | VNull => "null"
  | VBool true => "true"
  | VBool false => "false"
  | VNum n => pretty n
  | VStr s => quoted s
  | VArr items => "[" +:+ join_comma (List.map stringifyValue items) +:+ "]"
  | VObj props =>
      "{" +:+ join_comma (List.map (fun p => quoted (fst p) +:+ ":" +:+ stringifyValue (snd p)) props)
        +:+ "}"
  end.

Definition stringifyPayload (p : Payload) : string :=
  stringifyValue
    (VObj [("event", VStr (payload_event p));
           ("data", VObj (map_to_list (payload_data p)));
           ("timestamp", VStr (payload_timestamp p))]).

#[export] Instance referenceRuntime : Runtime := {|
  Date_parse := isoParse;
  toLowerCase := asciiLowerCase;
  toLowerCase_ascii := fun s _ => eq_refl;
  JSON_stringify := stringifyPayload;
  createHmac_sha256 := fun key text => "hmac-sha256(" +:+ key +:+ "," +:+ text +:+ ")";
|}.

(** ** Histories of the cache *)





(** The webhook requests among what the process emitted. *)
Definition webhookCalls (o : list Output) : list Request :=
  omap (fun x => match x with WebhookCalled r => Some r | WsSend _ _ _ => None end) o.

(** What [searchEvents] needs of a stored event: a string for its title and
    for its type, and a description that is a string or falsy. *)
Definition isStringValue (v : option Value) : bool :=
  match v with
  | Some (VStr _) => true
  | _ => false
  end.

Definition searchable (e : Event) : bool :=
  isStringValue (e !! "title") && isStringValue (e !! "type")
  && (negb (truthy (e !! "description")) || isStringValue (e !! "description")).

(** The events the reminder scan looks at: a date and a time both set. *)
Definition timed (e : Event) : bool := truthy (e !! "date") && truthy (e !! "time").

(** The date and the time both convert to text, as the template literal
    [`${date}T${time}`] needs. *)
Definition templated (e : Event) : bool :=
  convertible (e !! "date") && convertible (e !! "time").

(** The text of a string value, empty for any other value. *)
Definition textOf (v : option Value) : string :=
  match v with
  | Some (VStr s) => s
  | _ => ""
  end.

(** The length a query must exceed to match neither the title nor the
    description of [e]. *)
Definition searchedLength {rt : Runtime} (e : Event) : nat :=
  String.length (toLowerCase (textOf (e !! "title")))
  + String.length (toLowerCase (textOf (e !! "description"))).

(** A query of [n] letters. *)
Fixpoint longQuery (n : nat) : string :=
  match n with
  | O => EmptyString
  | S k => String "z" (longQuery k)
  end.


(** The events of a list that belong to the bucket [k], in the order of the
    list. *)
Definition eventsOn (k : string) (l : list Event) : list Event :=
  List.filter (fun e => match dateKey e with
                        | Some key => String.eqb key k
                        | None => false
                        end) l.





(** ** The rest of the cache and its routes *)

(** [events.find(e => e.id === id)] of [GET /api/events/:id]; [None] is
    the 404 answer. *)
Definition findEvent (id : string) (c : DataCache) : option Event :=
  List.find (fun e => is_string (e !! "id") id) (events c).

(** *** Notification history ([this.notifications]) *)

(** [{ id: Date.now().toString(), ...notification, sentAt }] *)
Definition newNotification (now : Z) (notification : Event) : Event :=
  <["sentAt" := VStr (toISOString now)]>
    (notification ∪ {["id" := VStr (pretty now)]}).

(** [l.slice(-n)] *)
Definition sliceLast {A} (l : list A) (n : Z) : list A :=
  slice l (- n) (Z.of_nat (length l)).

(** The array after [addNotification]: the new entry is pushed, and beyond
    1000 entries only the last 1000 are kept. *)
Definition addNotification (now : Z) (notification : Event) (notifications : list Event)
  : list Event :=
  let l := notifications ++ [newNotification now notification] in
  if 1000 <? Z.of_nat (length l) then sliceLast l 1000 else l.

(** [GET /api/notifications/history]: [limit] is [Number(req.query.limit)],
    0 when it is absent or not a number. *)
Definition notificationHistory (limit : Z) (notifications : list Event) : list Event :=
  sliceLast notifications (if limit =? 0 then 100 else limit).

(** *** API keys ([this.apiKeys]) *)

Record KeyData := {
  key_createdAt : string;
  key_lastUsed : option string;
  key_requests : Z;
}.

(** [randomKey] is [crypto.randomBytes(32).toString('hex')]. *)
Definition generateApiKey (now : Z) (randomKey : string) (apiKeys : gmap string KeyData)
  : gmap string KeyData :=
  <[randomKey := {| key_createdAt := toISOString now; key_lastUsed := None;
                    key_requests := 0 |}]> apiKeys.

Definition validateApiKey (now : Z) (key : string) (apiKeys : gmap string KeyData)
  : bool * gmap string KeyData :=
  match apiKeys !! key with
  | None => (false, apiKeys)
  | Some keyData =>
      (true, <[key := {| key_createdAt := key_createdAt keyData;
                         key_lastUsed := Some (toISOString now);
                         key_requests := key_requests keyData + 1 |}]> apiKeys)
  end.

(** [req.headers['x-api-key'] || req.query.apiKey], when truthy. *)
Definition presentedKey (header query : option string) : option string :=
  match given header with
  | Some k => Some k
  | None => given query
  end.

(** The middleware: [true] lets the request through, [false] is the 401. *)
Definition requireApiKey (now : Z) (header query : option string)
    (apiKeys : gmap string KeyData) : bool * gmap string KeyData :=
  match presentedKey header query with
  | Some k => validateApiKey now k apiKeys
  | None => (false, apiKeys)
  end.

(** *** iCal export *)

(** [s.replace(/c/g, '')] *)
Fixpoint removeChar (c : ascii) (s : string) : string :=
  match s with
  | EmptyString => EmptyString
  | String a rest =>
      if Ascii.eqb a c then removeChar c rest else String a (removeChar c rest)
  end.

(** [s.split(c)[0]] *)
Fixpoint beforeChar (c : ascii) (s : string) : string :=
  match s with
  | EmptyString => EmptyString
  | String a rest => if Ascii.eqb a c then EmptyString else String a (beforeChar c rest)
  end.

(** [s.replace(/\n/g, '\\n')]: a line feed becomes a backslash and an n. *)
Fixpoint escapeNewlines (s : string) : string :=
  match s with
  | EmptyString => EmptyString
  | String a rest =>
      if Ascii.eqb a (ascii_of_nat 10)
      then String "\" (String "n" (escapeNewlines rest))
      else String a (escapeNewlines rest)
  end.

(** [v.replace(..)] has a value only on a string. *)
Definition stringOf (v : option Value) : option string :=
  match v with
  | Some (VStr s) => Some s
  | _ => None
  end.

(** [new Date().toISOString().replace(/[-:]/g, '').split('.')[0] + 'Z'] *)
Definition dtstamp (now : Z) : string :=
  beforeChar "." (removeChar ":" (removeChar "-" (toISOString now))) +:+ "Z".

(** The lines one event adds; [None] is a [TypeError], of a [replace] on a
    value that is not a string or of a template literal on a value that does
    not convert. *)
Definition eventLines (now : Z) (e : Event) : option (list string) :=
  eventDate ← option_map (removeChar "-") (stringOf (e !! "date"));
  eventTime ← (if truthy (e !! "time")
               then option_map (fun t => removeChar ":" t +:+ "00") (stringOf (e !! "time"))
               else Some "000000");
  uid ← propertyKey (e !! "id");
  summary ← propertyKey (e !! "title");
  description ← (if truthy (e !! "description")
                 then option_map (fun d => ["DESCRIPTION:" +:+ escapeNewlines d])
                        (stringOf (e !! "description"))
                 else Some []);
  location ← (if truthy (e !! "location")
              then option_map (fun l => ["LOCATION:" +:+ l]) (propertyKey (e !! "location"))
              else Some []);
  Some (["BEGIN:VEVENT";
         "UID:" +:+ uid +:+ "@calendar.app";
         "DTSTAMP:" +:+ dtstamp now;
         "DTSTART:" +:+ eventDate +:+ "T" +:+ eventTime;
         "SUMMARY:" +:+ summary]
        ++ description ++ location ++ ["END:VEVENT"]).

(** The [forEach] over the events. *)
Fixpoint allEventLines (now : Z) (l : list Event) : option (list string) :=
  match l with
  | [] => Some []
  | e :: rest =>
      match eventLines now e with
      | None => None
      | Some lines =>
          match allEventLines now rest with
          | None => None
          | Some more => Some (lines ++ more)
          end
      end
  end.

Definition icalHeader : list string :=
  ["BEGIN:VCALENDAR"; "VERSION:2.0"; "PRODID:-//Calendar App//EN";
   "CALSCALE:GREGORIAN"; "METHOD:PUBLISH"].

(** The array [ical] before it is joined. *)
Definition icalLines (now : Z) (c : DataCache) : option (list string) :=
  option_map (fun body => icalHeader ++ body ++ ["END:VCALENDAR"])
    (allEventLines now (events c)).

Definition crlf : string := String (ascii_of_nat 13) (String (ascii_of_nat 10) EmptyString).

Definition generateICal (now : Z) (c : DataCache) : option string :=
  option_map (String.concat crlf) (icalLines now c).


(** ** The browser calendar ([calendar.js]) *)

Module Calendar.

(** [changeMonth(direction)] on [currentMonth] (0 to 11) and [currentYear]. *)
Definition changeMonth (direction : Z) (monthYear : Z * Z) : Z * Z :=
  let month := fst monthYear + direction in
  if month <? 0 then (11, snd monthYear - 1)
  else if 11 <? month then (0, snd monthYear + 1)
  else (month, snd monthYear).

(** [getEventsForDate(dateStr)] *)
Definition getEventsForDate (dateStr : string) (events : list Event) : list Event :=
  List.filter (fun e => is_string (e !! "date") dateStr) events.

(** The spans [addEventIndicators] adds to a cell. *)
Inductive Indicator :=
| Shown (e : Event)
| More (count : Z).

Definition addEventIndicators (events : list Event) (maxEventsPerDay : Z) : list Indicator :=
  let maxToShow := Z.min (Z.of_nat (length events)) (maxEventsPerDay - 1) in
  List.map Shown (take (Z.to_nat maxToShow) events)
  ++ (if maxToShow <? Z.of_nat (length events)
      then [More (Z.of_nat (length events) - maxToShow)] else []).

(** The events an indicator stands for. *)
Definition standsFor (i : Indicator) : Z :=
  match i with
  | Shown _ => 1
  | More count => count
  end.

Definition represented (l : list Indicator) : Z :=
  fold_right (fun i total => standsFor i + total) 0 l.

End Calendar.


(** The events the index can file: the date converts to a property key,
    and the key does not name an inherited property. *)
Definition indexable (e : Event) : bool :=
  match dateKey e with
  | Some k => negb (inherited k)
  | None => false
  end.

(** [v] is a string whose lower-case form contains [q]. *)
Definition containsText {rt : Runtime} (v : option Value) (q : string) : bool :=
  match v with
  | Some (VStr s) => includes (toLowerCase s) q
  | _ => false
  end.

Definition matchesText {rt : Runtime} (q : string) (e : Event) : bool :=
  containsText (e !! "title") q || containsText (e !! "description") q
  || containsText (e !! "type") q.

(** Histories in which the clock never goes back between two adds, no two
    adds share a reading, and no add carries an id: [Clocked t c] when every
    add so far was made before [t]. *)
Inductive Clocked {rt : Runtime} : Z -> DataCache -> Prop :=
| clocked_new t c :
    events c = [] -> Clocked t c
| clocked_add t now eventData c :
    Clocked t c -> t <= now -> eventData !! "id" = None ->
    Clocked (now + 1) (cacheOf (addEvent now eventData c))
| clocked_update t now eventId updates c :
    Clocked t c -> Clocked t (cacheOf (updateEvent now eventId updates c))
| clocked_delete t now eventId c :
    Clocked t c -> Clocked t (cacheOf (deleteEvent now eventId c)).

(** The index and the store hold the same events, each under the key of
    its date. *)
Definition indexAgrees (c : DataCache) : Prop :=
  forall e k, In e (bucket c k) <-> In e (events c) /\ dateKey e = Some k.

(** [idx] files exactly the events satisfying [P], each under its date. *)
Definition filesExactly (idx : gmap string (list Event)) (P : Event -> Prop) : Prop :=
  forall e k, In e (default [] (idx !! k)) <-> P e /\ dateKey e = Some k.


(** ** Sample data *)

Definition sync : Event :=
  {[ "title" := VStr "Sync"; "date" := VStr "2024-01-20"; "time" := VStr "14:00";
     "type" := VStr "meeting" ]}.

Definition lunch : Event :=
  {[ "title" := VStr "Lunch"; "date" := VStr "2024-01-21"; "type" := VStr "personal" ]}.

(** 2024-01-19T21:33:20.000Z *)
Definition t0 : Z := 1705700000000.

(** One event today ([t0]) and one tomorrow. *)
Definition twoDays : DataCache :=
  cacheOf (addEvent t0 sync
             (cacheOf (addEvent t0 {["title" := VStr "Standup"; "date" := VStr "2024-01-19";
                                     "type" := VStr "meeting"]} emptyCache))).


(** [sync] alone, and [sync] followed by [lunch]. *)
Definition oneEvent : DataCache := cacheOf (addEvent t0 sync emptyCache).

Definition syncThenLunch : DataCache := cacheOf (addEvent (t0 + 1) lunch oneEvent).

(** An event whose time is the JSON object [{"toString": 1}]. *)
Definition oddTime : Event :=
  {[ "title" := VStr "Odd"; "date" := VStr "2024-01-20";
     "time" := VObj [("toString", VNum 1)] ]}.


(** A page of one event after the first, with no filter. *)
Definition secondPage : Query.t :=
  {| Query.start := None; Query.stop := None; Query.month := None; Query.year := None;
     Query.type := None; Query.search := None; Query.limit := 1; Query.offset := 1 |}.

(** The titles and the ids of a list of events. *)
Definition titles (l : list Event) : list (option Value) :=
  List.map (fun e => e !! "title") l.

Definition ids (l : list Event) : list (option Value) :=
  List.map (fun e => e !! "id") l.

(** * Properties *)

Section Properties.
Context {rt : Runtime}.

(** ** Basic facts *)

Lemma events_emit o c : events (emit o c) = events c.
Proof. reflexivity. Qed.

Lemma eventsByDate_emit o c : eventsByDate (emit o c) = eventsByDate c.
Proof. reflexivity. Qed.

Lemma newEvent_lookup now eventData k :
  k <> "id" -> k <> "createdAt" -> k <> "notifications" ->
  newEvent now eventData !! k = eventData !! k.
Proof.
  intros Hid Hc Hn. unfold newEvent.
  rewrite lookup_insert_ne by congruence.
  rewrite lookup_insert_ne by congruence.
  rewrite lookup_union_l; [reflexivity|].
  rewrite lookup_singleton_ne by congruence. reflexivity.
Qed.


Lemma readSlot_own_or_absent idx k :
  inherited k = false ->
  readSlot idx k = match idx !! k with Some l => Own l | None => Absent end.
Proof. intros H. unfold readSlot. rewrite H. reflexivity. Qed.

Lemma indexPush_ok idx e k :
  dateKey e = Some k -> inherited k = false ->
  indexPush idx e = Some (<[k := default [] (idx !! k) ++ [e]]> idx).
Proof.
  intros Hk H. unfold indexPush. rewrite Hk, readSlot_own_or_absent by exact H.
  destruct (idx !! k); reflexivity.
Qed.


(** ** Adding an event *)

Lemma events_addEvent now eventData c :
  events (cacheOf (addEvent now eventData c)) = events c ++ [newEvent now eventData].
Proof. unfold addEvent. destruct (indexPush _ _); reflexivity. Qed.


(** ** The index keeps every event under its own date *)



Lemma readSlot_Own idx k l : readSlot idx k = Own l -> idx !! k = Some l.
Proof.
  unfold readSlot. destruct (idx !! k); [congruence|].
  destruct (inherited k); discriminate.
Qed.









Lemma events_fold_triggerWebhooks now type l : forall c,
  events (fold_left (fun c e => triggerWebhooks now type e c) l c) = events c
  /\ eventsByDate (fold_left (fun c e => triggerWebhooks now type e c) l c)
     = eventsByDate c.
Proof.
  induction l as [|e l IH]; intros c; simpl; [split; reflexivity|].
  destruct (IH (triggerWebhooks now type e c)) as [-> ->]. split; reflexivity.
Qed.

Lemma notificationChecker_store now c :
  events (notificationChecker now c) = events c
  /\ eventsByDate (notificationChecker now c) = eventsByDate c.
Proof.
  unfold notificationChecker.
  destruct (getEventsNeedingReminders now 15 c) as [[|e l]|]; [split; reflexivity| |split; reflexivity].
  destruct (events_fold_triggerWebhooks now "event.reminder" (e :: l)
              (broadcast "reminders-due" (DArr (e :: l)) c)) as [-> ->].
  split; reflexivity.
Qed.



(** ** Updating an event *)

Lemma is_string_spec v s : is_string v s = true <-> v = Some (VStr s).
Proof.
  unfold is_string. destruct v as [[]|]; try (split; [discriminate|congruence]).
  rewrite String.eqb_eq. split; congruence.
Qed.

Lemma findIndex_None eventId l :
  findIndex eventId l = None ->
  forall e, In e l -> e !! "id" <> Some (VStr eventId).
Proof.
  induction l as [|x l IH]; simpl; [intros _ e []|].
  destruct (is_string (x !! "id") eventId) eqn:Hx; [discriminate|].
  destruct (findIndex eventId l); [discriminate|].
  intros _ e [<-|He]; [|apply IH; [reflexivity|exact He]].
  intros Habs. apply is_string_spec in Habs. congruence.
Qed.

Lemma findIndex_Some eventId l : forall index,
  findIndex eventId l = Some index ->
  exists e, l !! index = Some e /\ e !! "id" = Some (VStr eventId)
    /\ forall j x, (j < index)%nat -> l !! j = Some x -> x !! "id" <> Some (VStr eventId).
Proof.
  induction l as [|x l IH]; simpl; [discriminate|]. intros index.
  destruct (is_string (x !! "id") eventId) eqn:Hx.
  - intros [= <-]. exists x. split; [reflexivity|]. split; [apply is_string_spec, Hx|].
    intros j y Hj. lia.
  - destruct (findIndex eventId l) as [i|]; [|discriminate].
    intros [= <-]. destruct (IH i eq_refl) as (e & He & Hid & Hfirst).
    exists e. split; [exact He|]. split; [exact Hid|].
    intros [|j] y Hj; simpl.
    + intros [= <-] Habs. apply is_string_spec in Habs. congruence.
    + apply Hfirst. lia.
Qed.

Lemma mergeEvent_lookup now eventId oldEvent updates k :
  k <> "id" -> k <> "updatedAt" ->
  mergeEvent now eventId oldEvent updates !! k
  = match updates !! k with Some v => Some v | None => oldEvent !! k end.
Proof.
  intros Hid Hup. unfold mergeEvent.
  rewrite lookup_insert_ne by congruence.
  rewrite lookup_insert_ne by congruence.
  rewrite lookup_union. destruct (updates !! k), (oldEvent !! k); reflexivity.
Qed.

(** C4.  When no stored event has the id, [updateEvent] returns [null] (the
    route's 404 "Event not found") and changes nothing.  Otherwise the first
    event with that id is replaced in [this.events] by the merged event:
    it has every field of the updates, keeps every field the updates do not
    name, has [updatedAt] set to the time of the call, and keeps the id of
    the event even when the updates carry an [id]. *)
Theorem updateEvent_merges_fields
    (now : Z) (eventId : string) (updates : Event) (c : DataCache) :
  match findIndex eventId (events c) with
  | None =>
      (forall e, In e (events c) -> e !! "id" <> Some (VStr eventId))
      /\ updateEvent now eventId updates c = Returned None c
  | Some index =>
      exists oldEvent,
        events c !! index = Some oldEvent
        /\ oldEvent !! "id" = Some (VStr eventId)
        /\ let updated := mergeEvent now eventId oldEvent updates in
           events (cacheOf (updateEvent now eventId updates c))
             = <[index := updated]> (events c)
           /\ (forall r c', updateEvent now eventId updates c = Returned r c' ->
                 r = Some updated)
           /\ updated !! "id" = oldEvent !! "id"
           /\ updated !! "updatedAt" = Some (VStr (toISOString now))
           /\ (forall k v, k <> "id" -> k <> "updatedAt" ->
                 updates !! k = Some v -> updated !! k = Some v)
           /\ (forall k, k <> "id" -> k <> "updatedAt" ->
                 updates !! k = None -> updated !! k = oldEvent !! k)
  end.
Proof.
  destruct (findIndex eventId (events c)) as [index|] eqn:Hfind.
  - destruct (findIndex_Some _ _ _ Hfind) as (oldEvent & Hold & Hid & _).
    exists oldEvent. split; [exact Hold|]. split; [exact Hid|]. cbv zeta.
    assert (events (cacheOf (updateEvent now eventId updates c))
            = <[index := mergeEvent now eventId oldEvent updates]> (events c)
            /\ forall r c', updateEvent now eventId updates c = Returned r c' ->
                 r = Some (mergeEvent now eventId oldEvent updates)) as [Hstore Hret].
    { unfold updateEvent. rewrite Hfind, Hold.
      destruct (dateChanged oldEvent updates).
      - destruct (indexRemoveOf _ _ _) as [idx|]; [|split; [reflexivity|discriminate]].
        destruct (indexPush idx _) as [idx'|]; [|split; [reflexivity|discriminate]].
        split; [reflexivity|]. intros r c' [= <- _]. reflexivity.
      - split; [reflexivity|]. intros r c' [= <- _]. reflexivity. }
    split; [exact Hstore|]. split; [exact Hret|].
    split; [|split; [|split]].
    + unfold mergeEvent. rewrite lookup_insert_ne by discriminate.
      rewrite lookup_insert_eq. symmetry. exact Hid.
    + unfold mergeEvent. apply lookup_insert_eq.
    + intros k v Hk1 Hk2 Hv. rewrite mergeEvent_lookup, Hv by assumption. reflexivity.
    + intros k Hk1 Hk2 Hv. rewrite mergeEvent_lookup, Hv by assumption. reflexivity.
  - split; [apply findIndex_None; exact Hfind|].
    unfold updateEvent. rewrite Hfind. reflexivity.
Qed.

(** ** Reminders *)

Lemma collectThrowing_total {A B} (f : A -> option (option B)) (l : list A) :
  (exists found, collectThrowing f l = Some found) <-> Forall (fun x => f x <> None) l.
Proof.
  induction l as [|x l IH]; simpl.
  - split; [constructor|eauto].
  - split.
    + intros [found H]. destruct (f x) as [p|] eqn:Hx; [|discriminate].
      destruct (collectThrowing f l) as [m|]; [|discriminate].
      constructor; [congruence|]. apply IH. eauto.
    + intros H. inversion H as [|? ? Hx Hl]; subst. apply IH in Hl as [m ->].
      destruct (f x) as [p|]; [eauto|contradiction].
Qed.

Lemma collectThrowing_In {A B} (f : A -> option (option B)) (l : list A) : forall found,
  collectThrowing f l = Some found ->
  forall y, In y found <-> exists x, In x l /\ f x = Some (Some y).
Proof.
  induction l as [|x l IH]; simpl; intros found.
  - intros [= <-] y. split; [intros []|intros (x & [] & _)].
  - destruct (f x) as [p|] eqn:Hx; [|discriminate].
    destruct (collectThrowing f l) as [m|]; [|discriminate].
    intros [= <-] y. specialize (IH m eq_refl y). destruct p as [z|].
    + simpl. rewrite IH. split.
      * intros [<-|(x' & Hin & Hf)]; [exists x; auto|exists x'; auto].
      * intros (x' & [<-|Hin] & Hf); [left; congruence|right; eauto].
    + rewrite IH. split.
      * intros (x' & Hin & Hf). exists x'. auto.
      * intros (x' & [<-|Hin] & Hf); [congruence|eauto].
Qed.

Lemma collectThrowing_length {A B} (f : A -> option (option B)) (l : list A) : forall found,
  collectThrowing f l = Some found -> (length found <= length l)%nat.
Proof.
  induction l as [|x l IH]; simpl; intros found.
  - intros [= <-]. reflexivity.
  - destruct (f x) as [p|]; [|discriminate].
    destruct (collectThrowing f l) as [m|]; [|discriminate].
    intros [= <-]. specialize (IH m eq_refl). destruct p; simpl; lia.
Qed.

Lemma timeClip_Some t u :
  timeClip t = Some u <-> u = t /\ Z.abs t <= 8640000000000000.
Proof.
  unfold timeClip. destruct (Z.abs t <=? 8640000000000000) eqn:H.
  - apply Z.leb_le in H. split; [intros [= <-]; auto|intros [-> _]; reflexivity].
  - apply Z.leb_gt in H. split; [discriminate|lia].
Qed.

(** A scan step pushes an entry exactly for an event that is due. *)
Lemma needsReminder_spec now minutesBefore e r :
  needsReminder now minutesBefore e = Some (Some r) <->
  exists T, truthy (e !! "date") = true /\ truthy (e !! "time") = true
    /\ eventTimeOf e = Some (Some T) /\ now < T <= now + minutesBefore * 60000
    /\ Z.abs (now + minutesBefore * 60000) <= 8640000000000000
    /\ r = reminderOf now e T.
Proof.
  unfold needsReminder, checkTimeOf. split.
  - destruct (truthy (e !! "date")); [|discriminate].
    destruct (truthy (e !! "time")); [|discriminate]. simpl.
    destruct (eventTimeOf e) as [[T|]|]; [|discriminate..].
    destruct (timeClip _) as [u|] eqn:Hclip; [|discriminate].
    apply timeClip_Some in Hclip as [-> Hrange].
    destruct (now <? T) eqn:Hlo; [|discriminate].
    destruct (T <=? now + minutesBefore * 60000) eqn:Hhi; [|discriminate].
    simpl. intros [= <-]. exists T. repeat split; lia.
  - intros (T & -> & -> & -> & [Hlo Hhi] & Hrange & ->). simpl.
    assert (timeClip (now + minutesBefore * 60000) = Some (now + minutesBefore * 60000))
      as -> by (apply timeClip_Some; auto).
    apply Z.ltb_lt in Hlo. apply Z.leb_le in Hhi. rewrite Hlo, Hhi. reflexivity.
Qed.

(** A scan step throws exactly on an event with a date and a time of which
    one does not convert to text. *)
Lemma needsReminder_throws now minutesBefore e :
  needsReminder now minutesBefore e = None <-> timed e = true /\ templated e = false.
Proof.
  unfold needsReminder, timed, templated, eventTimeOf, convertible.
  destruct (truthy (e !! "date") && truthy (e !! "time")); [|split; [discriminate|intros [? _]; discriminate]].
  destruct (propertyKey (e !! "date")), (propertyKey (e !! "time")); simpl;
    split; try discriminate; try (intros [_ ?]; discriminate); auto.
Qed.

(** C6, as amended.  [getEventsNeedingReminders] returns unless some stored
    event with a date and a time has one that does not convert to text, and
    then it throws.  When it returns, it has an entry for a stored event
    exactly when the date and the time of the event are both set, the instant
    [T] of [new Date(`${date}T${time}`)] satisfies [now < T <= now + M
    minutes], and [now + M minutes] is itself a date (at most 8.64e15 ms from
    the epoch); an event in the past, one without a time, and one whose date
    and time do not parse are left out.  The call only reads the cache, and
    the timer that makes it leaves the events and the index as they were. *)
Theorem getEventsNeedingReminders_exactly_due
    (now minutesBefore : Z) (c : DataCache) :
  ((exists due, getEventsNeedingReminders now minutesBefore c = Some due)
   <-> Forall (fun e => timed e = true -> templated e = true) (events c))
  /\ (forall due, getEventsNeedingReminders now minutesBefore c = Some due ->
      forall r, In r due <->
        exists e T, In e (events c)
          /\ truthy (e !! "date") = true /\ truthy (e !! "time") = true
          /\ eventTimeOf e = Some (Some T)
          /\ now < T <= now + minutesBefore * 60000
          /\ Z.abs (now + minutesBefore * 60000) <= 8640000000000000
          /\ r = reminderOf now e T)
  /\ (forall e r, truthy (e !! "time") = false ->
        needsReminder now minutesBefore e <> Some (Some r))
  /\ (forall e T r, eventTimeOf e = Some (Some T) -> T <= now ->
        needsReminder now minutesBefore e <> Some (Some r))
  /\ (forall e r, eventTimeOf e = Some None ->
        needsReminder now minutesBefore e <> Some (Some r))
  /\ events (notificationChecker now c) = events c
  /\ eventsByDate (notificationChecker now c) = eventsByDate c.
Proof.
  split; [|split; [|split; [|split; [|split]]]].
  - unfold getEventsNeedingReminders. rewrite collectThrowing_total.
    split; intros H; (eapply Forall_impl; [exact H|]); intros e He; cbv beta in *.
    + intros Ht. destruct (templated e) eqn:Hc; [reflexivity|].
      contradiction He. apply needsReminder_throws. auto.
    + intros Habs. apply needsReminder_throws in Habs as [Ht Hc].
      rewrite (He Ht) in Hc. discriminate.
  - intros due Hdue r. unfold getEventsNeedingReminders in Hdue.
    rewrite (collectThrowing_In _ _ _ Hdue). split.
    + intros (e & He & Hr). apply needsReminder_spec in Hr as (T & ? & ? & ? & ? & ? & ?).
      exists e, T. auto 10.
    + intros (e & T & He & ? & ? & ? & ? & ? & ?). exists e. split; [exact He|].
      apply needsReminder_spec. exists T. auto 10.
  - intros e r Htime Hr. apply needsReminder_spec in Hr as (T & _ & Ht & _). congruence.
  - intros e T r HT Hpast Hr. apply needsReminder_spec in Hr as (T' & _ & _ & HT' & [Hlo _] & _).
    assert (T' = T) by congruence. lia.
  - intros e r HT Hr. apply needsReminder_spec in Hr as (T' & _ & _ & HT' & _). congruence.
  - apply notificationChecker_store.
Qed.

(** ** Webhooks *)







(** ** Free-text search *)

Lemma length_longQuery n : String.length (longQuery n) = n.
Proof. induction n as [|n IH]; simpl; [reflexivity|rewrite IH; reflexivity]. Qed.

(** A query of lower-case ASCII letters is its own lower-case form. *)
Lemma toLowerCase_longQuery n : toLowerCase (longQuery n) = longQuery n.
Proof.
  rewrite toLowerCase_ascii.
  - induction n as [|n IH]; simpl; [reflexivity|rewrite IH; reflexivity].
  - induction n as [|n IH]; simpl; [reflexivity|exact IH].
Qed.

Lemma prefix_length q : forall s,
  String.prefix q s = true -> (String.length q <= String.length s)%nat.
Proof.
  induction q as [|a q IH]; intros s; simpl; [lia|].
  destruct s as [|b s]; simpl; [discriminate|].
  destruct (ascii_dec a b); [|discriminate].
  intros H. apply IH in H. lia.
Qed.

Lemma includes_cons a s q :
  includes (String a s) q
  = if String.prefix q (String a s) then true else includes s q.
Proof. reflexivity. Qed.

Lemma includes_longer s : forall q,
  (String.length s < String.length q)%nat -> includes s q = false.
Proof.
  induction s as [|a s IH]; intros q Hlen.
  - destruct q; simpl in *; [lia|reflexivity].
  - rewrite includes_cons. destruct (String.prefix q (String a s)) eqn:Hp.
    + apply prefix_length in Hp. simpl in *. lia.
    + apply IH. simpl in Hlen. lia.
Qed.

Lemma filterThrowing_total {A} (f : A -> option bool) (l : list A) :
  (exists kept, filterThrowing f l = Some kept) <-> Forall (fun x => f x <> None) l.
Proof.
  induction l as [|x l IH]; simpl.
  - split; [constructor|eauto].
  - split.
    + intros [kept H]. destruct (f x) as [b|] eqn:Hx; [|discriminate].
      destruct (filterThrowing f l) as [k|]; [|discriminate].
      constructor; [congruence|]. apply IH. eauto.
    + intros H. inversion H as [|? ? Hx Hl]; subst. apply IH in Hl as [k ->].
      destruct (f x) as [b|]; [eauto|contradiction].
Qed.

Lemma matchesQuery_searchable q e :
  searchable e = true -> matchesQuery q e <> None.
Proof.
  unfold searchable, matchesQuery, lowerIncludes.
  destruct (e !! "title") as [[| | |t| |]|]; try discriminate.
  destruct (e !! "type") as [[| | |ty| |]|]; try discriminate. simpl.
  destruct (includes (toLowerCase t) q); [discriminate|].
  destruct (e !! "description") as [[|b|n|d| |]|]; simpl;
    try discriminate.
  - destruct b; discriminate.
  - destruct (n =? 0); discriminate.
  - destruct (String.eqb d ""); simpl; [discriminate|].
    destruct (includes (toLowerCase d) q); discriminate.
Qed.

(** A query longer than the title and the description matches neither, so
    every access of the callback is reached. *)
Lemma matchesQuery_long e :
  let q := longQuery (S (searchedLength e)) in
  matchesQuery (toLowerCase q) e <> None -> searchable e = true.
Proof.
  intros q. unfold searchable, matchesQuery, lowerIncludes.
  assert (forall s, (String.length (toLowerCase s) <= searchedLength e)%nat ->
                    includes (toLowerCase s) (toLowerCase q) = false) as Hno.
  { intros s Hs. apply includes_longer.
    unfold q. rewrite toLowerCase_longQuery, length_longQuery. lia. }
  clearbody q. unfold searchedLength in Hno.
  destruct (e !! "title") as [[| | |t| |]|]; try congruence.
  rewrite (Hno t) by (simpl; lia). simpl.
  destruct (e !! "description") as [[|b|n|d| |]|]; simpl; try congruence;
    try (destruct (e !! "type") as [[| | |ty| |]|]; simpl; congruence).
  - destruct b; simpl; [congruence|].
    destruct (e !! "type") as [[| | |ty| |]|]; simpl; congruence.
  - destruct (n =? 0); simpl; [|congruence].
    destruct (e !! "type") as [[| | |ty| |]|]; simpl; congruence.
  - rewrite orb_true_r, andb_true_r.
    destruct (String.eqb d ""); simpl.
    + destruct (e !! "type") as [[| | |ty| |]|]; simpl; congruence.
    + rewrite (Hno d) by (simpl; lia).
      destruct (e !! "type") as [[| | |ty| |]|]; simpl; congruence.
Qed.

(** C10, as amended.  [searchEvents] returns for every query string exactly
    when each stored event has a string title, a string type and a
    description that is a string or falsy: the guard on the description
    covers a missing or empty one, not a truthy value of another type.  In
    particular an event without a description is searched safely. *)
Theorem searchEvents_total_iff_searchable (c : DataCache) :
  ((forall query, exists found, searchEvents query c = Some found)
   <-> Forall (fun e => searchable e = true) (events c))
  /\ (forall query e,
        isStringValue (e !! "title") = true -> isStringValue (e !! "type") = true ->
        e !! "description" = None ->
        matchesQuery (toLowerCase query) e <> None).
Proof.
  split.
  - split.
    + intros Htotal. apply Forall_forall. intros e He.
      apply matchesQuery_long.
      destruct (Htotal (longQuery (S (searchedLength e)))) as [found Hf].
      unfold searchEvents in Hf.
      assert (exists kept, filterThrowing
                (matchesQuery (toLowerCase (longQuery (S (searchedLength e)))))
                (events c) = Some kept)
        as Hex by eauto.
      apply filterThrowing_total in Hex.
      rewrite Forall_forall in Hex. apply Hex. exact He.
    + intros Hall query. unfold searchEvents. apply filterThrowing_total.
      eapply Forall_impl; [exact Hall|].
      intros e He. apply matchesQuery_searchable. exact He.
  - intros query e Ht Hty Hd. apply matchesQuery_searchable.
    unfold searchable. rewrite Ht, Hty, Hd. reflexivity.
Qed.

(** ** Flushing and loading *)

Lemma eventsOn_app k l1 l2 : eventsOn k (l1 ++ l2) = eventsOn k l1 ++ eventsOn k l2.
Proof. unfold eventsOn. apply List.filter_app. Qed.

Lemma indexable_spec e :
  indexable e = true <-> exists k, dateKey e = Some k /\ inherited k = false.
Proof.
  unfold indexable. destruct (dateKey e) as [k|].
  - rewrite negb_true_iff. split; [eauto|]. intros (k' & [= <-] & H). exact H.
  - split; [discriminate|]. intros (k & H & _). discriminate.
Qed.

(** The [forEach] of a load completes exactly when every event can be
    filed. *)
Lemma indexAll_completed l : forall idx,
  (forall k, inherited k = true -> idx !! k = None) ->
  snd (indexAll l idx) = forallb indexable l.
Proof.
  induction l as [|e l IH]; intros idx Hidx; simpl; [reflexivity|].
  unfold indexable at 1. destruct (dateKey e) as [k|] eqn:Hkey.
  - destruct (inherited k) eqn:Hk; simpl.
    + unfold indexPush, readSlot. rewrite Hkey, (Hidx _ Hk), Hk. reflexivity.
    + rewrite (indexPush_ok _ _ k) by assumption. apply IH.
      intros k' Hin. rewrite lookup_insert_ne by congruence. apply Hidx. exact Hin.
  - unfold indexPush. rewrite Hkey. reflexivity.
Qed.


Lemma events_loadEvents now parsed c :
  events (loadEvents now (Some parsed) c)
  = if forallb indexable (default [] (file_events parsed))
    then default [] (file_events parsed) else [].
Proof.
  unfold loadEvents.
  pose proof (indexAll_completed (default [] (file_events parsed)) ∅) as H.
  destruct (indexAll _ _) as [idx completed]. simpl in H.
  rewrite <- H by (intros k _; apply lookup_empty).
  destruct completed; reflexivity.
Qed.


(** ** Date texts *)












(** ** Upcoming events *)



Lemma walkDays_nothing fuel c d stop : stop < d -> walkDays fuel c d stop = [].
Proof.
  intros H. destruct fuel; [reflexivity|]. simpl.
  assert ((d <=? stop) = false) as -> by (apply Z.leb_gt; exact H). reflexivity.
Qed.









End Properties.

(** * The cache at work

    The remaining statements run the cache, with the reference runtime, on
    the sample data. *)



(** C2.  After an update that leaves the date alone the store holds the
    merged event while the bucket still holds the event as it was added: the
    stored event is in no bucket, and the event the index gives for its
    date is not the stored one. *)
Theorem updateEvent_same_date_leaves_index_stale :
  let c1 := cacheOf (addEvent t0 sync emptyCache) in
  let c2 := cacheOf (updateEvent (t0 + 5) "1705700000000" {["title" := VStr "Sync v2"]} c1) in
  titles (events c2) = [Some (VStr "Sync v2")]
  /\ titles (bucket c2 "2024-01-20") = [Some (VStr "Sync")]
  /\ (forall e, In e (events c2) ->
        dateKey e = Some "2024-01-20" /\ ~ In e (bucket c2 "2024-01-20")).
Proof.
  cbv zeta.
  set (c2 := cacheOf (updateEvent _ _ _ _)).
  set (added := newEvent t0 sync).
  set (merged := mergeEvent (t0 + 5) "1705700000000" added {["title" := VStr "Sync v2"]}).
  assert (events c2 = [merged]) as Hstore by reflexivity.
  assert (bucket c2 "2024-01-20" = [added]) as Hbucket by reflexivity.
  assert (dateKey merged = Some "2024-01-20") as Hkey by reflexivity.
  rewrite Hstore, Hbucket.
  split; [reflexivity|]. split; [reflexivity|].
  intros e [<-|[]]. split; [exact Hkey|].
  intros [Heq|[]]. apply (f_equal (fun e : Event => e !! "title")) in Heq.
  vm_compute in Heq. discriminate.
Qed.

(** C3.  Two events added at the same reading of the clock get the same
    id, and so does an event whose fields carry the id of a stored one. *)
Theorem addEvent_gives_duplicate_ids :
  let c1 := cacheOf (addEvent t0 sync emptyCache) in
  ids (events (cacheOf (addEvent t0 lunch c1)))
    = [Some (VStr "1705700000000"); Some (VStr "1705700000000")]
  /\ ids (events (cacheOf (addEvent (t0 + 60000)
                             (<["id" := VStr "1705700000000"]> lunch) c1)))
    = [Some (VStr "1705700000000"); Some (VStr "1705700000000")].
Proof. split; reflexivity. Qed.

(** C5.  With a type and a search text the handler answers with the
    events matching the text, whatever their type: the result of the type
    filter is replaced, not narrowed. *)
Theorem listEvents_search_drops_other_filters :
  let c := cacheOf (addEvent t0 lunch emptyCache) in
  let q := {| Query.start := None; Query.stop := None; Query.month := None;
              Query.year := None; Query.type := Some "meeting";
              Query.search := Some "lunch"; Query.limit := 100; Query.offset := 0 |} in
  let typeOnly := {| Query.start := None; Query.stop := None; Query.month := None;
              Query.year := None; Query.type := Some "meeting";
              Query.search := None; Query.limit := 100; Query.offset := 0 |} in
  option_map (fun p => ((fun e => (e !! "title", e !! "type")) <$> page_events p,
                        page_total p)) (listEvents q c)
    = Some ([(Some (VStr "Lunch"), Some (VStr "personal"))], 1)
  /\ option_map (fun p => (page_events p, page_total p)) (listEvents typeOnly c)
    = Some ([], 0).
Proof. split; reflexivity. Qed.

(** C6, counterexample.  The stored event is at 14:00, ten minutes after
    the scan.  With a lead of 15 minutes it is returned; with a lead of
    10^12 minutes it is within the window and is not returned, the end of
    the window being no date; and once an event whose time is the object
    [{"toString": 1}] is stored, the scan throws. *)
Lemma getEventsNeedingReminders_misses_due_event :
  let now := 1705759200000 - 10 * 60000 in
  eventTimeOf (newEvent t0 sync) = Some (Some 1705759200000)
  /\ option_map titles (getEventsNeedingReminders now 15 oneEvent)
     = Some [Some (VStr "Sync")]
  /\ now < 1705759200000 <= now + 10 ^ 12 * 60000
  /\ getEventsNeedingReminders now (10 ^ 12) oneEvent = Some []
  /\ timed (newEvent t0 oddTime) = true
  /\ getEventsNeedingReminders now 15 (cacheOf (addEvent t0 oddTime oneEvent)) = None.
Proof.
  cbv zeta. split; [reflexivity|]. split; [reflexivity|]. split; [lia|].
  split; [reflexivity|]. split; reflexivity.
Qed.

(** C7, witness: one event today, one tomorrow, a window of one day. *)


(** C9, counterexample.  An event moved to a date that already has an
    event is last in the bucket of that date but stays first in the store:
    after a flush and a load the bucket lists the two in the other order.
    And a store that holds an event dated ["constructor"] is empty after a
    flush and a load. *)



(** C10, counterexample.  The stored event has a string title and a
    string type, and a description that is [true]: a search that does not
    match the title throws. *)
Lemma searchEvents_throws_on_description :
  let c := cacheOf (addEvent t0 {["title" := VStr "Sync"; "type" := VStr "meeting";
                                  "date" := VStr "2024-01-20";
                                  "description" := VBool true]} emptyCache) in
  Forall (fun e => isStringValue (e !! "title") = true
                   /\ isStringValue (e !! "type") = true) (events c)
  /\ searchEvents "lunch" c = None
  /\ exists found, searchEvents "sync" c = Some found.
Proof.
  cbv zeta. split; [repeat constructor|]. split; [reflexivity|].
  eexists. reflexivity.
Qed.

(** * Further properties of the server *)

Ltac conjuncts := cbv zeta; repeat match goal with |- _ /\ _ => split end.

Section Coverage.
Context {rt : Runtime}.

(** ** Deleting *)

Lemma bucket_insert_eq c idx k l :
  bucket (with_eventsByDate (<[k := l]> idx) c) k = l.
Proof. unfold bucket. simpl. rewrite lookup_insert_eq. reflexivity. Qed.

Lemma bucket_insert_ne c idx k k' l :
  k <> k' ->
  bucket (with_eventsByDate (<[k := l]> idx) c) k' = default [] (idx !! k').
Proof. intros H. unfold bucket. simpl. rewrite lookup_insert_ne by exact H. reflexivity. Qed.

(** What [indexRemove] does to the buckets when it returns. *)
Lemma indexRemove_buckets idx k eventId idx' :
  indexRemove idx k eventId = Some idx' ->
  default [] (idx' !! k) = List.filter (otherId eventId) (default [] (idx !! k))
  /\ forall k', k' <> k -> idx' !! k' = idx !! k'.
Proof.
  unfold indexRemove. destruct (readSlot idx k) as [l| |] eqn:Hslot; intros H;
    [injection H as <- | discriminate | injection H as <-].
  - apply readSlot_Own in Hslot. rewrite lookup_insert_eq, Hslot. simpl.
    split; [reflexivity|]. intros k' Hne. apply lookup_insert_ne. congruence.
  - unfold readSlot in Hslot. destruct (idx !! k) as [l|] eqn:Hl; [discriminate|].
    simpl. split; [reflexivity|]. reflexivity.
Qed.

Lemma indexRemoveOf_buckets idx e eventId idx' :
  indexRemoveOf idx e eventId = Some idx' ->
  exists k, dateKey e = Some k
    /\ default [] (idx' !! k) = List.filter (otherId eventId) (default [] (idx !! k))
    /\ forall k', k' <> k -> idx' !! k' = idx !! k'.
Proof.
  unfold indexRemoveOf. destruct (dateKey e) as [k|]; [|discriminate].
  intros H. exists k. split; [reflexivity|]. apply indexRemove_buckets. exact H.
Qed.

(** [deleteEvent] answers [false] and changes nothing when no stored event
    has the id.  Otherwise the first event with that id leaves [this.events];
    when the call returns it returns [true], the bucket of that event's date
    has lost every entry with the id, and no other bucket has changed. *)
Theorem deleteEvent_removes_first_match (now : Z) (eventId : string) (c : DataCache) :
  match findIndex eventId (events c) with
  | None =>
      (forall e, In e (events c) -> e !! "id" <> Some (VStr eventId))
      /\ deleteEvent now eventId c = Returned false c
  | Some index =>
      exists event,
        events c !! index = Some event
        /\ event !! "id" = Some (VStr eventId)
        /\ events (cacheOf (deleteEvent now eventId c)) = delete index (events c)
        /\ forall r c', deleteEvent now eventId c = Returned r c' ->
             r = true
             /\ exists key, dateKey event = Some key
                  /\ bucket c' key = List.filter (otherId eventId) (bucket c key)
                  /\ forall k, k <> key -> bucket c' k = bucket c k
  end.
Proof.
  destruct (findIndex eventId (events c)) as [index|] eqn:Hfind.
  - destruct (findIndex_Some _ _ _ Hfind) as (event & Hev & Hid & _).
    exists event. split; [exact Hev|]. split; [exact Hid|].
    unfold deleteEvent. rewrite Hfind, Hev. simpl.
    destruct (indexRemoveOf (eventsByDate c) event eventId) as [idx|] eqn:Hrem.
    + split; [reflexivity|]. intros r c' [= <- <-].
      destruct (indexRemoveOf_buckets _ _ _ _ Hrem) as (key & Hkey & Hsame & Hother).
      split; [reflexivity|]. exists key. split; [exact Hkey|]. split.
      * unfold bucket. simpl. exact Hsame.
      * intros k Hk. unfold bucket. simpl. rewrite Hother by exact Hk. reflexivity.
    + split; [reflexivity|]. discriminate.
  - split; [apply findIndex_None; exact Hfind|].
    unfold deleteEvent. rewrite Hfind. reflexivity.
Qed.

(** ** Ids *)

Lemma ids_app l1 l2 : ids (l1 ++ l2) = ids l1 ++ ids l2.
Proof. apply List.map_app. Qed.

Lemma ids_insert_same (l : list Event) : forall index old new,
  l !! index = Some old -> new !! "id" = old !! "id" ->
  ids (<[index := new]> l) = ids l.
Proof.
  induction l as [|x l IH]; intros [|index] old new Hl Hid; simpl in *; try discriminate.
  - injection Hl as ->. unfold ids in *. simpl. rewrite Hid. reflexivity.
  - unfold ids in *. simpl. f_equal. eapply IH; eassumption.
Qed.

Lemma ids_delete (l : list Event) : forall index,
  ids (delete index l) = delete index (ids l).
Proof.
  induction l as [|x l IH]; intros [|index]; simpl; try reflexivity.
  unfold ids in *. simpl. f_equal. apply IH.
Qed.

Lemma newEvent_id now eventData :
  newEvent now eventData !! "id"
  = match eventData !! "id" with Some v => Some v | None => Some (VStr (pretty now)) end.
Proof.
  unfold newEvent. rewrite lookup_insert_ne by discriminate.
  rewrite lookup_insert_ne by discriminate. rewrite lookup_union.
  rewrite lookup_singleton_eq. destruct (eventData !! "id"); reflexivity.
Qed.

Lemma events_updateEvent now eventId updates c :
  events (cacheOf (updateEvent now eventId updates c)) = events c
  \/ exists index oldEvent,
       events c !! index = Some oldEvent
       /\ oldEvent !! "id" = Some (VStr eventId)
       /\ events (cacheOf (updateEvent now eventId updates c))
          = <[index := mergeEvent now eventId oldEvent updates]> (events c).
Proof.
  destruct (findIndex eventId (events c)) as [index|] eqn:Hfind.
  - destruct (findIndex_Some _ _ _ Hfind) as (oldEvent & Hold & Hid & _).
    right. exists index, oldEvent. split; [exact Hold|]. split; [exact Hid|].
    unfold updateEvent. rewrite Hfind, Hold.
    destruct (dateChanged oldEvent updates); [|reflexivity].
    destruct (indexRemoveOf _ _ _) as [idx|]; [|reflexivity].
    destruct (indexPush idx _); reflexivity.
  - left. unfold updateEvent. rewrite Hfind. reflexivity.
Qed.

Lemma ids_updateEvent now eventId updates c :
  ids (events (cacheOf (updateEvent now eventId updates c))) = ids (events c).
Proof.
  destruct (events_updateEvent now eventId updates c)
    as [->|(index & oldEvent & Hold & Hid & ->)]; [reflexivity|].
  eapply ids_insert_same; [exact Hold|].
  unfold mergeEvent. rewrite lookup_insert_ne by discriminate.
  rewrite lookup_insert_eq. symmetry. exact Hid.
Qed.

(** No update changes the id of any stored event, whatever the updates
    carry, and none changes the number or the order of the stored events. *)
Theorem updateEvent_keeps_every_id
    (now : Z) (eventId : string) (updates : Event) (c : DataCache) :
  ids (events (cacheOf (updateEvent now eventId updates c))) = ids (events c)
  /\ length (events (cacheOf (updateEvent now eventId updates c))) = length (events c).
Proof.
  split; [apply ids_updateEvent|].
  destruct (events_updateEvent now eventId updates c)
    as [->|(index & oldEvent & _ & _ & ->)]; [reflexivity|apply length_insert].
Qed.

(** Ids stay pairwise distinct through an add whose fields carry no id at
    a clock reading whose text is not yet a stored id, and through every
    delete. *)
Theorem distinct_ids_preserved (c : DataCache) :
  NoDup (ids (events c)) ->
  (forall now eventData,
     eventData !! "id" = None ->
     ~ In (Some (VStr (pretty now))) (ids (events c)) ->
     NoDup (ids (events (cacheOf (addEvent now eventData c)))))
  /\ (forall now eventId,
        NoDup (ids (events (cacheOf (deleteEvent now eventId c))))).
Proof.
  intros Hnodup. split.
  - intros now eventData Hnoid Hfresh.
    rewrite events_addEvent, ids_app. unfold ids at 2. simpl.
    rewrite newEvent_id, Hnoid.
    apply NoDup_app. split; [exact Hnodup|]. split; [|apply NoDup_singleton].
    intros x Hx Hin. apply list_elem_of_singleton in Hin. subst x.
    apply Hfresh. apply list_elem_of_In. exact Hx.
  - intros now eventId. unfold deleteEvent.
    destruct (findIndex eventId (events c)) as [index|]; [|exact Hnodup].
    destruct (events c !! index) as [event|]; [|exact Hnodup].
    assert (NoDup (ids (delete index (events c)))) as H.
    { rewrite ids_delete. eapply sublist_NoDup; [exact Hnodup|apply sublist_delete]. }
    simpl. destruct (indexRemoveOf _ _ _); exact H.
Qed.

(** ** Finding an event by id *)

Lemma find_snoc {A} (f : A -> bool) (l : list A) (x : A) :
  List.find f (l ++ [x])
  = match List.find f l with
    | Some y => Some y
    | None => if f x then Some x else None
    end.
Proof.
  induction l as [|y l IH]; simpl; [reflexivity|].
  destruct (f y); [reflexivity|exact IH].
Qed.

(** After an add, [GET /api/events/:id] answers as before for every id that
    was stored; the new event is found under its id only when no older
    event has it.  With no id among the fields and a fresh clock text, the
    new event is found under that text. *)
Theorem findEvent_after_addEvent (now : Z) (eventData : Event) (c : DataCache) :
  (forall id,
     findEvent id (cacheOf (addEvent now eventData c))
     = match findEvent id c with
       | Some older => Some older
       | None =>
           if is_string (newEvent now eventData !! "id") id
           then Some (newEvent now eventData) else None
       end)
  /\ (eventData !! "id" = None -> findEvent (pretty now) c = None ->
      findEvent (pretty now) (cacheOf (addEvent now eventData c))
      = Some (newEvent now eventData)).
Proof.
  assert (forall id,
     findEvent id (cacheOf (addEvent now eventData c))
     = match findEvent id c with
       | Some older => Some older
       | None =>
           if is_string (newEvent now eventData !! "id") id
           then Some (newEvent now eventData) else None
       end) as H.
  { intros id. unfold findEvent. rewrite events_addEvent.
    exact (find_snoc (fun e : Event => is_string (e !! "id") id) _ _). }
  split; [exact H|]. intros Hnoid Hfresh.
  rewrite H, Hfresh, newEvent_id, Hnoid. simpl. rewrite String.eqb_refl. reflexivity.
Qed.

(** ** Updates and the index *)

(** An update that moves an event to another date takes every entry with
    its id out of the bucket of the old date, appends the merged event to
    the bucket of the new date, and leaves the other buckets alone (the two
    dates converting to different keys, neither of them an inherited name). *)
Theorem updateEvent_moves_between_buckets
    (now : Z) (eventId : string) (updates : Event) (c : DataCache)
    (index : nat) (oldEvent : Event) (oldKey newKey : string) :
  findIndex eventId (events c) = Some index ->
  events c !! index = Some oldEvent ->
  dateChanged oldEvent updates = true ->
  dateKey oldEvent = Some oldKey ->
  dateKey (mergeEvent now eventId oldEvent updates) = Some newKey ->
  inherited oldKey = false ->
  inherited newKey = false ->
  oldKey <> newKey ->
  exists c',
    updateEvent now eventId updates c
      = Returned (Some (mergeEvent now eventId oldEvent updates)) c'
    /\ bucket c' oldKey = List.filter (otherId eventId) (bucket c oldKey)
    /\ bucket c' newKey = bucket c newKey ++ [mergeEvent now eventId oldEvent updates]
    /\ forall k, k <> oldKey -> k <> newKey -> bucket c' k = bucket c k.
Proof.
  intros Hfind Hold Hchanged Hkold Hknew Hiold Hinew Hne.
  set (updated := mergeEvent now eventId oldEvent updates) in *.
  unfold updateEvent. rewrite Hfind, Hold, Hchanged. fold updated. simpl.
  unfold indexRemoveOf. rewrite Hkold.
  destruct (indexRemove (eventsByDate c) oldKey eventId) as [idx|] eqn:Hrem.
  2:{ unfold indexRemove in Hrem. rewrite readSlot_own_or_absent in Hrem by exact Hiold.
      destruct (eventsByDate c !! oldKey); discriminate. }
  destruct (indexRemove_buckets _ _ _ _ Hrem) as [Hsame Hother].
  rewrite (indexPush_ok _ _ newKey) by assumption.
  eexists. split; [reflexivity|]. unfold bucket. simpl. split; [|split].
  - rewrite lookup_insert_ne by congruence. exact Hsame.
  - rewrite lookup_insert_eq. simpl. rewrite Hother by congruence. reflexivity.
  - intros k Hk1 Hk2. rewrite lookup_insert_ne by congruence.
    rewrite Hother by exact Hk1. reflexivity.
Qed.

(** An update that does not name a date leaves [this.eventsByDate] exactly
    as it was: the bucket goes on holding the event as it was before. *)
Theorem updateEvent_without_date_keeps_index
    (now : Z) (eventId : string) (updates : Event) (c : DataCache) :
  updates !! "date" = None ->
  eventsByDate (cacheOf (updateEvent now eventId updates c)) = eventsByDate c.
Proof.
  intros Hnodate. unfold updateEvent.
  destruct (findIndex eventId (events c)) as [index|]; [|reflexivity].
  destruct (events c !! index) as [oldEvent|]; [|reflexivity].
  unfold dateChanged. rewrite Hnodate. reflexivity.
Qed.

(** ** The write-behind timer *)

(** A mutation that returns a result leaves a flush scheduled; one that
    finds no event changes nothing, and one that throws schedules nothing. *)
Theorem mutations_schedule_flush (now : Z) (c : DataCache) :
  (forall eventData e c', addEvent now eventData c = Returned e c' -> writeTimer c' = true)
  /\ (forall eventId updates e c',
        updateEvent now eventId updates c = Returned (Some e) c' -> writeTimer c' = true)
  /\ (forall eventId c', deleteEvent now eventId c = Returned true c' -> writeTimer c' = true)
  /\ (forall eventId updates c',
        updateEvent now eventId updates c = Returned None c' -> c' = c)
  /\ (forall eventId c', deleteEvent now eventId c = Returned false c' -> c' = c)
  /\ (forall eventData c', addEvent now eventData c = Threw c' -> writeTimer c' = writeTimer c)
  /\ (forall eventId updates c',
        updateEvent now eventId updates c = Threw c' -> writeTimer c' = writeTimer c)
  /\ (forall eventId c', deleteEvent now eventId c = Threw c' -> writeTimer c' = writeTimer c).
Proof.
  conjuncts.
  - intros eventData e c'. unfold addEvent.
    destruct (indexPush _ _); [|discriminate]. intros [= _ <-]. reflexivity.
  - intros eventId updates e c'. unfold updateEvent.
    destruct (findIndex eventId (events c)) as [index|]; [|discriminate].
    destruct (events c !! index) as [oldEvent|]; [|discriminate].
    destruct (dateChanged oldEvent updates).
    + destruct (indexRemoveOf _ _ _) as [idx|]; [|discriminate].
      destruct (indexPush idx _); [|discriminate]. intros [= _ <-]. reflexivity.
    + intros [= _ <-]. reflexivity.
  - intros eventId c'. unfold deleteEvent.
    destruct (findIndex eventId (events c)) as [index|]; [|discriminate].
    destruct (events c !! index) as [event|]; [|discriminate].
    destruct (indexRemoveOf _ _ _); [|discriminate]. intros [= <-]. reflexivity.
  - intros eventId updates c'. unfold updateEvent.
    destruct (findIndex eventId (events c)) as [index|]; [|intros [= <-]; reflexivity].
    destruct (events c !! index) as [oldEvent|]; [|intros [= <-]; reflexivity].
    destruct (dateChanged oldEvent updates).
    + destruct (indexRemoveOf _ _ _) as [idx|]; [|discriminate].
      destruct (indexPush idx _); discriminate.
    + discriminate.
  - intros eventId c'. unfold deleteEvent.
    destruct (findIndex eventId (events c)) as [index|]; [|intros [= <-]; reflexivity].
    destruct (events c !! index) as [event|]; [|intros [= <-]; reflexivity].
    destruct (indexRemoveOf _ _ _); discriminate.
  - intros eventData c'. unfold addEvent.
    destruct (indexPush _ _); [discriminate|]. intros [= <-]. reflexivity.
  - intros eventId updates c'. unfold updateEvent.
    destruct (findIndex eventId (events c)) as [index|]; [|discriminate].
    destruct (events c !! index) as [oldEvent|]; [|discriminate].
    destruct (dateChanged oldEvent updates); [|discriminate].
    destruct (indexRemoveOf _ _ _) as [idx|]; [|intros [= <-]; reflexivity].
    destruct (indexPush idx _); [discriminate|]. intros [= <-]. reflexivity.
  - intros eventId c'. unfold deleteEvent.
    destruct (findIndex eventId (events c)) as [index|]; [|discriminate].
    destruct (events c !! index) as [event|]; [|discriminate].
    destruct (indexRemoveOf _ _ _); [discriminate|]. intros [= <-]. reflexivity.
Qed.

(** ** Loading *)

(** A load keeps all the events of the file or none of them.  It keeps
    none when the file cannot be read or parsed, and then the index stays
    as it was; and when the date of some event of the file does not convert
    to a property key, or converts to the name of a property the index
    object inherits. *)
Theorem loadEvents_all_or_nothing (now : Z) (file : option DataFile) (c : DataCache) :
  match file with
  | None =>
      events (loadEvents now file c) = []
      /\ eventsByDate (loadEvents now file c) = eventsByDate c
      /\ lastModified_events (loadEvents now file c) = lastModified_events c
  | Some parsed =>
      events (loadEvents now file c)
        = (if forallb indexable (default [] (file_events parsed))
           then default [] (file_events parsed) else [])
      /\ (forall e, indexable e = true <->
            exists key, propertyKey (e !! "date") = Some key /\ inherited key = false)
      /\ lastModified_events (loadEvents now file c) = Some now
  end.
Proof.
  destruct file as [parsed|]; [|repeat split; reflexivity].
  split; [apply events_loadEvents|]. split; [intros e; apply indexable_spec|].
  unfold loadEvents. destruct (indexAll _ _) as [idx completed].
  destruct completed; reflexivity.
Qed.

(** ** Notification history *)

Lemma sliceLast_positive {A} (l : list A) (n : Z) :
  0 < n -> sliceLast l n = drop (length l - Z.to_nat n) l.
Proof.
  intros Hn. unfold sliceLast, slice.
  assert ((- n <? 0) = true) as -> by (apply Z.ltb_lt; lia).
  assert ((Z.of_nat (length l) <? 0) = false) as -> by (apply Z.ltb_ge; lia).
  replace (Z.to_nat (Z.max (Z.of_nat (length l) + - n) 0))
    with (length l - Z.to_nat n)%nat by lia.
  apply take_ge. rewrite length_drop. lia.
Qed.

Lemma sliceLast_negative {A} (l : list A) (n : Z) :
  n < 0 -> sliceLast l n = drop (Z.to_nat (- n)) l.
Proof.
  intros Hn. unfold sliceLast, slice.
  assert ((- n <? 0) = false) as -> by (apply Z.ltb_ge; lia).
  assert ((Z.of_nat (length l) <? 0) = false) as -> by (apply Z.ltb_ge; lia).
  destruct (Z.le_gt_cases (- n) (Z.of_nat (length l))) as [Hle|Hgt].
  - replace (Z.to_nat (Z.min (- n) (Z.of_nat (length l)))) with (Z.to_nat (- n)) by lia.
    apply take_ge. rewrite length_drop. lia.
  - replace (Z.to_nat (Z.min (- n) (Z.of_nat (length l)))) with (length l) by lia.
    rewrite !drop_ge by lia. apply take_nil.
Qed.

(** [addNotification] appends the new record and keeps the 1000 most
    recent ones: the history never grows beyond 1000 entries, the new record
    is its last entry, and the entries evicted are the oldest. *)
Theorem addNotification_keeps_last_1000
    (now : Z) (notification : Event) (notifications : list Event) :
  addNotification now notification notifications
    = drop (length notifications + 1 - 1000)
        (notifications ++ [newNotification now notification])
  /\ length (addNotification now notification notifications)
     = Nat.min 1000 (length notifications + 1)
  /\ last (addNotification now notification notifications)
     = Some (newNotification now notification).
Proof.
  assert (addNotification now notification notifications
    = drop (length notifications + 1 - 1000)
        (notifications ++ [newNotification now notification])) as H.
  { unfold addNotification. cbv zeta. rewrite length_app. simpl.
    destruct (1000 <? Z.of_nat (length notifications + 1)) eqn:Hbig.
    - apply Z.ltb_lt in Hbig. rewrite sliceLast_positive by lia.
      rewrite length_app. simpl. f_equal.
    - apply Z.ltb_ge in Hbig.
      replace (length notifications + 1 - 1000)%nat with 0%nat by lia. reflexivity. }
  rewrite H. split; [reflexivity|]. split.
  - rewrite length_drop, length_app. cbn [length]. lia.
  - destruct (Nat.le_gt_cases (length notifications + 1 - 1000) (length notifications))
      as [Hle|Hgt]; [|lia].
    rewrite drop_app_le by exact Hle. apply last_snoc.
Qed.

(** The history route answers with the [limit] most recent records, 100
    when no limit is given; a negative limit instead drops that many of the
    oldest records. *)
Theorem notificationHistory_window (limit : Z) (notifications : list Event) :
  (0 < limit ->
   notificationHistory limit notifications
   = drop (length notifications - Z.to_nat limit) notifications)
  /\ (limit = 0 ->
      notificationHistory limit notifications
      = drop (length notifications - 100) notifications)
  /\ (limit < 0 ->
      notificationHistory limit notifications = drop (Z.to_nat (- limit)) notifications).
Proof.
  unfold notificationHistory. conjuncts.
  - intros H. assert ((limit =? 0) = false) as -> by (apply Z.eqb_neq; lia).
    apply sliceLast_positive. exact H.
  - intros ->. simpl. rewrite sliceLast_positive by lia. reflexivity.
  - intros H. assert ((limit =? 0) = false) as -> by (apply Z.eqb_neq; lia).
    apply sliceLast_negative. exact H.
Qed.

(** ** API keys *)

Lemma validateApiKey_known now key apiKeys keyData :
  apiKeys !! key = Some keyData ->
  validateApiKey now key apiKeys
  = (true, <[key := {| key_createdAt := key_createdAt keyData;
                       key_lastUsed := Some (toISOString now);
                       key_requests := key_requests keyData + 1 |}]> apiKeys).
Proof. intros H. unfold validateApiKey. rewrite H. reflexivity. Qed.

Lemma validations_count key (times : list Z) : forall apiKeys keyData,
  apiKeys !! key = Some keyData ->
  key_requests <$> (fold_left (fun m t => snd (validateApiKey t key m)) times apiKeys !! key)
  = Some (key_requests keyData + Z.of_nat (length times))
  /\ forall other, other <> key ->
       fold_left (fun m t => snd (validateApiKey t key m)) times apiKeys !! other
       = apiKeys !! other.
Proof.
  induction times as [|t times IH]; intros apiKeys keyData Hk.
  - simpl. rewrite Hk. simpl. split; [f_equal; lia|reflexivity].
  - cbn [fold_left]. rewrite (validateApiKey_known _ _ _ _ Hk). cbn [snd].
    edestruct IH as [Hcount Hother]; [apply lookup_insert_eq|].
    rewrite Hcount. cbn [key_requests length]. split; [f_equal; lia|].
    intros other Hne. rewrite Hother by exact Hne.
    apply lookup_insert_ne. congruence.
Qed.

(** A key that was never generated is refused and the registry stays as it
    is.  A generated key is accepted every time, its counter is the number
    of validations since it was generated, and validating it touches no
    other key. *)
Theorem validateApiKey_counts_requests
    (t : Z) (key : string) (apiKeys : gmap string KeyData) (times : list Z) :
  (apiKeys !! key = None -> forall now, validateApiKey now key apiKeys = (false, apiKeys))
  /\ (forall now registry, is_Some (registry !! key) ->
        fst (validateApiKey now key registry) = true
        /\ is_Some (snd (validateApiKey now key registry) !! key))
  /\ key_requests <$>
       (fold_left (fun m now => snd (validateApiKey now key m)) times
          (generateApiKey t key apiKeys) !! key)
     = Some (Z.of_nat (length times))
  /\ (forall other, other <> key ->
        fold_left (fun m now => snd (validateApiKey now key m)) times
          (generateApiKey t key apiKeys) !! other
        = apiKeys !! other).
Proof.
  conjuncts.
  - intros H now. unfold validateApiKey. rewrite H. reflexivity.
  - intros now registry [keyData Hk]. rewrite (validateApiKey_known _ _ _ _ Hk).
    split; [reflexivity|]. simpl. rewrite lookup_insert_eq. eauto.
  - edestruct (validations_count key times (generateApiKey t key apiKeys)) as [H _].
    { unfold generateApiKey. apply lookup_insert_eq. }
    rewrite H. reflexivity.
  - intros other Hne.
    edestruct (validations_count key times (generateApiKey t key apiKeys)) as [_ H].
    { unfold generateApiKey. apply lookup_insert_eq. }
    rewrite H by exact Hne. unfold generateApiKey. apply lookup_insert_ne. congruence.
Qed.

(** The middleware lets a request through exactly when the key it presents
    is registered.  The header is read first: a header key that is not
    registered is refused whatever the query carries.  A refused request
    leaves the registry as it is. *)
Theorem requireApiKey_presented_key
    (now : Z) (header query : option string) (apiKeys : gmap string KeyData) :
  (fst (requireApiKey now header query apiKeys) = true <->
   exists k, presentedKey header query = Some k /\ k <> "" /\ is_Some (apiKeys !! k))
  /\ (forall h, header = Some h -> h <> "" -> apiKeys !! h = None ->
        fst (requireApiKey now header query apiKeys) = false)
  /\ (fst (requireApiKey now header query apiKeys) = false ->
      snd (requireApiKey now header query apiKeys) = apiKeys).
Proof.
  assert (forall p k, given p = Some k -> k <> "") as Hgiven.
  { intros [s|] k; simpl; [|discriminate].
    destruct (String.eqb s "") eqn:He; [discriminate|].
    intros [= <-]. apply String.eqb_neq. exact He. }
  assert (forall k, presentedKey header query = Some k -> k <> "") as Hpres.
  { unfold presentedKey. intros k. destruct (given header) eqn:Hh.
    - intros [= <-]. eapply Hgiven. exact Hh.
    - apply Hgiven. }
  conjuncts.
  - unfold requireApiKey.
    destruct (presentedKey header query) as [k|] eqn:Hk.
    + unfold validateApiKey. destruct (apiKeys !! k) as [d|] eqn:Hd; simpl; split.
      * intros _. exists k. split; [reflexivity|]. split; [apply Hpres; reflexivity|eauto].
      * intros _. reflexivity.
      * discriminate.
      * intros (k' & [= <-] & _ & [d Hd']). congruence.
    + simpl. split; [discriminate|]. intros (k' & Habs & _). discriminate.
  - intros h -> Hne Hunknown. unfold requireApiKey, presentedKey. simpl.
    destruct (String.eqb h "") eqn:He; [apply String.eqb_eq in He; contradiction|].
    unfold validateApiKey. rewrite Hunknown. reflexivity.
  - unfold requireApiKey. destruct (presentedKey header query) as [k|]; [|reflexivity].
    unfold validateApiKey. destruct (apiKeys !! k); [discriminate|reflexivity].
Qed.

(** ** iCal export *)

Lemma hasValue_Some {A} (o : option A) : hasValue o = true <-> exists x, o = Some x.
Proof. destruct o; simpl; split; eauto; try discriminate. intros [x H]. discriminate. Qed.







Lemma allEventLines_snoc_None now l e :
  eventLines now e = None -> allEventLines now (l ++ [e]) = None.
Proof.
  intros He. induction l as [|x l IH]; simpl.
  - rewrite He. reflexivity.
  - destruct (eventLines now x); [|reflexivity]. rewrite IH. reflexivity.
Qed.

(** Once an event has been added whose date is not a string (a missing one
    included), the export throws, whether the add returned or threw. *)
(** Once an event has been added whose date is not a string (a missing one
    included), the export throws, whether the add returned or threw. *)
Theorem addEvent_without_date_breaks_export
    (now later : Z) (eventData : Event) (c : DataCache) :
  isStringValue (eventData !! "date") = false ->
  generateICal later (cacheOf (addEvent now eventData c)) = None.
Proof.
  intros Hdate. unfold generateICal, icalLines.
  rewrite events_addEvent, allEventLines_snoc_None; [reflexivity|].
  unfold eventLines. rewrite (newEvent_lookup _ _ "date") by discriminate.
  destruct (eventData !! "date") as [[| | |d| |]|]; try reflexivity. discriminate.
Qed.

(** ** Date ranges *)





(** ** Pagination *)

Lemma slice_window {A} (l : list A) (from count : Z) :
  0 <= from -> 0 <= count ->
  slice l from (from + count) = take (Z.to_nat count) (drop (Z.to_nat from) l).
Proof.
  intros Hfrom Hcount. unfold slice.
  assert ((from <? 0) = false) as -> by (apply Z.ltb_ge; lia).
  assert ((from + count <? 0) = false) as -> by (apply Z.ltb_ge; lia).
  destruct (Z.le_gt_cases from (Z.of_nat (length l))) as [Hin|Hout].
  - replace (Z.to_nat (Z.min from (Z.of_nat (length l)))) with (Z.to_nat from) by lia.
    destruct (Z.le_gt_cases (from + count) (Z.of_nat (length l))) as [Hin'|Hout'].
    + f_equal. lia.
    + rewrite !take_ge by (rewrite length_drop; lia). reflexivity.
  - rewrite !drop_ge by lia. rewrite !take_nil. reflexivity.
Qed.

(** With an offset and a limit that are not negative, the page is the
    [limit] events after the first [offset] of the filtered list; the total
    is the length of that whole list whatever the page; and [hasMore] tells
    exactly whether events remain after the page. *)
Theorem listEvents_page (q : Query.t) (c : DataCache) (filtered : list Event) :
  filteredEvents q c = Some filtered ->
  0 <= Query.offset q -> 0 <= Query.limit q ->
  exists page,
    listEvents q c = Some page
    /\ page_events page
       = take (Z.to_nat (Query.limit q)) (drop (Z.to_nat (Query.offset q)) filtered)
    /\ page_total page = Z.of_nat (length filtered)
    /\ Z.of_nat (length (page_events page))
       = Z.min (Query.limit q) (Z.max 0 (page_total page - Query.offset q))
    /\ (page_hasMore page = true <->
        Query.offset q + Z.of_nat (length (page_events page)) < page_total page).
Proof.
  intros Hf Hoff Hlim. unfold listEvents. rewrite Hf. eexists. split; [reflexivity|].
  cbn [page_events page_total page_hasMore].
  rewrite slice_window by assumption.
  split; [reflexivity|]. split; [reflexivity|].
  rewrite length_take, length_drop. split; [lia|].
  rewrite Z.ltb_lt. lia.
Qed.

(** ** Search *)

Lemma includes_empty_query s : includes s "" = true.
Proof. destruct s; reflexivity. Qed.

Lemma includes_empty_text q : includes "" q = true -> q = "".
Proof. destruct q; [reflexivity|discriminate]. Qed.

Lemma matchesQuery_matchesText q e :
  searchable e = true -> matchesQuery q e = Some (matchesText q e).
Proof.
  unfold searchable, matchesQuery, matchesText, lowerIncludes, containsText.
  destruct (e !! "title") as [[| | |t| |]|]; try discriminate.
  destruct (e !! "type") as [[| | |ty| |]|]; try discriminate. simpl.
  destruct (includes (toLowerCase t) q) eqn:Ht; [reflexivity|]. simpl.
  destruct (e !! "description") as [[|b|n|d| |]|]; simpl; try discriminate;
    try reflexivity.
  - destruct b; [discriminate|reflexivity].
  - destruct (n =? 0); [reflexivity|discriminate].
  - intros _. destruct (String.eqb d "") eqn:Hd; simpl.
    + apply String.eqb_eq in Hd. subst d.
      destruct q as [|a q]; [rewrite includes_empty_query in Ht; discriminate|].
      rewrite (toLowerCase_ascii "") by reflexivity. reflexivity.
    + destruct (includes (toLowerCase d) q); reflexivity.
Qed.

Lemma filterThrowing_filter {A} (f : A -> option bool) (g : A -> bool) (l : list A) :
  Forall (fun x => f x = Some (g x)) l -> filterThrowing f l = Some (List.filter g l).
Proof.
  induction 1 as [|x l Hx Hl IH]; simpl; [reflexivity|].
  rewrite Hx, IH. reflexivity.
Qed.

(** When every stored event has a string title, a string type and a
    description that is a string or falsy, a search returns, in the order of
    the store, exactly the events whose title, description or type contains
    the query, letter case apart. *)
Theorem searchEvents_finds_matching_events (query : string) (c : DataCache) :
  Forall (fun e => searchable e = true) (events c) ->
  searchEvents query c
    = Some (List.filter (matchesText (toLowerCase query)) (events c))
  /\ forall found, searchEvents query c = Some found ->
       forall e, In e found <->
         In e (events c)
         /\ (containsText (e !! "title") (toLowerCase query) = true
             \/ containsText (e !! "description") (toLowerCase query) = true
             \/ containsText (e !! "type") (toLowerCase query) = true).
Proof.
  intros Hall.
  assert (searchEvents query c
          = Some (List.filter (matchesText (toLowerCase query)) (events c))) as Heq.
  { unfold searchEvents. apply filterThrowing_filter.
    eapply Forall_impl; [exact Hall|]. intros e He. apply matchesQuery_matchesText, He. }
  split; [exact Heq|]. intros found Hfound e. rewrite Heq in Hfound.
  injection Hfound as <-. rewrite filter_In. unfold matchesText.
  rewrite !orb_true_iff. tauto.
Qed.

(** ** Reminders *)

Lemma reminderOf_lookup now e T k :
  k <> "minutesUntil" -> k <> "notificationTime" -> reminderOf now e T !! k = e !! k.
Proof.
  intros H1 H2. unfold reminderOf.
  rewrite lookup_insert_ne by congruence. apply lookup_insert_ne. congruence.
Qed.

(** When the scan returns: every reminder carries the fields of its event,
    the scan time, and a whole number of minutes between zero and the
    window; a window that is not positive yields no reminder; there is at
    most one reminder for each stored event. *)
Theorem getEventsNeedingReminders_minutes
    (now minutesBefore : Z) (c : DataCache) (due : list Event) :
  getEventsNeedingReminders now minutesBefore c = Some due ->
  (forall r, In r due ->
     exists e m, In e (events c)
       /\ r !! "minutesUntil" = Some (VNum m) /\ 0 <= m <= minutesBefore
       /\ r !! "notificationTime" = Some (VStr (toISOString now))
       /\ forall k, k <> "minutesUntil" -> k <> "notificationTime" -> r !! k = e !! k)
  /\ (minutesBefore <= 0 -> due = [])
  /\ (length due <= length (events c))%nat.
Proof.
  intros Hdue. unfold getEventsNeedingReminders in Hdue.
  pose proof (collectThrowing_In _ _ _ Hdue) as Hin.
  conjuncts.
  - intros r Hr. apply Hin in Hr as (e & He & Hr).
    apply needsReminder_spec in Hr as (T & _ & _ & _ & [Hlo Hhi] & _ & ->).
    exists e, ((T - now) / 60000). split; [exact He|].
    split; [|split; [|split]].
    + unfold reminderOf. rewrite lookup_insert_ne by discriminate.
      apply lookup_insert_eq.
    + split; [apply Z.div_pos; lia|].
      apply Z.div_le_upper_bound; lia.
    + unfold reminderOf. apply lookup_insert_eq.
    + intros k. apply reminderOf_lookup.
  - intros Hwindow. destruct due as [|r due]; [reflexivity|].
    destruct (proj1 (Hin r) (or_introl eq_refl)) as (e & _ & Hr).
    apply needsReminder_spec in Hr as (T & _ & _ & _ & [Hlo Hhi] & _). lia.
  - eapply collectThrowing_length. exact Hdue.
Qed.




(** ** Registering webhooks *)



(** ** Deleting twice *)

Lemma findIndex_absent eventId (l : list Event) :
  (forall e, In e l -> e !! "id" <> Some (VStr eventId)) -> findIndex eventId l = None.
Proof.
  induction l as [|x l IH]; intros H; simpl; [reflexivity|].
  destruct (is_string (x !! "id") eventId) eqn:Hx.
  - apply is_string_spec in Hx. exfalso. apply (H x); [left; reflexivity|exact Hx].
  - rewrite IH; [reflexivity|]. intros e He. apply H. right. exact He.
Qed.

Lemma findIndex_delete eventId (l : list Event) : forall index,
  NoDup (ids l) -> findIndex eventId l = Some index ->
  findIndex eventId (delete index l) = None.
Proof.
  induction l as [|x l IH]; intros index Hnodup; simpl; [discriminate|].
  unfold ids in Hnodup. simpl in Hnodup. apply NoDup_cons in Hnodup as [Hx Hl].
  destruct (is_string (x !! "id") eventId) eqn:Hid.
  - intros [= <-]. simpl. apply findIndex_absent. intros e He Heq.
    apply is_string_spec in Hid. apply Hx. rewrite Hid, <- Heq.
    apply list_elem_of_In. apply (in_map (fun e : Event => e !! "id")). exact He.
  - destruct (findIndex eventId l) as [i|] eqn:Hfind; [|discriminate].
    intros [= <-]. simpl. rewrite Hid. rewrite (IH i Hl eq_refl). reflexivity.
Qed.

Lemma findEvent_absent eventId c :
  findIndex eventId (events c) = None -> findEvent eventId c = None.
Proof.
  unfold findEvent. induction (events c) as [|x l IH]; simpl; [reflexivity|].
  destruct (is_string (x !! "id") eventId); [discriminate|].
  destruct (findIndex eventId l); [discriminate|]. intros _. apply IH. reflexivity.
Qed.

(** With pairwise distinct ids, a deleted event is gone for good: it is
    no longer found by its id, and a second delete or an update of it answers
    not-found and changes nothing. *)
Theorem deleteEvent_then_not_found
    (now later : Z) (eventId : string) (c c' : DataCache) :
  NoDup (ids (events c)) ->
  deleteEvent now eventId c = Returned true c' ->
  findEvent eventId c' = None
  /\ deleteEvent later eventId c' = Returned false c'
  /\ forall updates, updateEvent later eventId updates c' = Returned None c'.
Proof.
  intros Hnodup Hdel.
  assert (findIndex eventId (events c') = None) as Hgone.
  { unfold deleteEvent in Hdel.
    destruct (findIndex eventId (events c)) as [index|] eqn:Hfind; [|discriminate].
    destruct (events c !! index) as [event|]; [|discriminate].
    destruct (indexRemoveOf _ _ _) as [idx|]; [|discriminate].
    injection Hdel as <-. cbn [events queueWrite triggerWebhooks broadcast emit
                               with_eventsByDate with_events].
    apply findIndex_delete; assumption. }
  conjuncts.
  - apply findEvent_absent, Hgone.
  - unfold deleteEvent. rewrite Hgone. reflexivity.
  - intros updates. unfold updateEvent. rewrite Hgone. reflexivity.
Qed.

(** ** The browser calendar *)

(** One step of the month navigation stays within the twelve months, moves
    by exactly one month, and is undone by the opposite step. *)
Theorem changeMonth_steps_one_month (direction month year : Z) :
  0 <= month <= 11 -> direction = 1 \/ direction = -1 ->
  0 <= fst (Calendar.changeMonth direction (month, year)) <= 11
  /\ 12 * snd (Calendar.changeMonth direction (month, year))
     + fst (Calendar.changeMonth direction (month, year))
     = 12 * year + month + direction
  /\ Calendar.changeMonth (- direction) (Calendar.changeMonth direction (month, year))
     = (month, year).
Proof.
  intros Hm Hd. unfold Calendar.changeMonth. cbn [fst snd].
  destruct (month + direction <? 0) eqn:Hlo.
  - apply Z.ltb_lt in Hlo. assert (month = 0 /\ direction = -1) as [-> ->] by lia.
    cbn. split; [lia|]. split; [lia|]. f_equal. lia.
  - apply Z.ltb_ge in Hlo. destruct (11 <? month + direction) eqn:Hhi.
    + apply Z.ltb_lt in Hhi. assert (month = 11 /\ direction = 1) as [-> ->] by lia.
      cbn. split; [lia|]. split; [lia|]. f_equal. lia.
    + apply Z.ltb_ge in Hhi. cbn [fst snd].
      assert ((month + direction + - direction <? 0) = false) as ->
        by (apply Z.ltb_ge; lia).
      assert ((11 <? month + direction + - direction) = false) as ->
        by (apply Z.ltb_ge; lia).
      split; [lia|]. split; [lia|]. f_equal. lia.
Qed.

Lemma represented_app l1 l2 :
  Calendar.represented (l1 ++ l2) = Calendar.represented l1 + Calendar.represented l2.
Proof.
  unfold Calendar.represented. induction l1 as [|i l1 IH]; simpl; [reflexivity|].
  rewrite IH. lia.
Qed.

Lemma represented_shown (l : list Event) :
  Calendar.represented (List.map Calendar.Shown l) = Z.of_nat (length l).
Proof.
  unfold Calendar.represented. induction l as [|e l IH]; [reflexivity|].
  cbn [List.map fold_right Calendar.standsFor length]. rewrite IH. lia.
Qed.

(** With room for at least one indicator a cell gets at most
    [maxEventsPerDay] of them and they account for every event of the day.
    With [maxEventsPerDay] at zero or below the single "more" indicator
    counts more events than the day has. *)
Theorem addEventIndicators_accounts_for_events (events : list Event) (maxEventsPerDay : Z) :
  (1 <= maxEventsPerDay ->
   Z.of_nat (length (Calendar.addEventIndicators events maxEventsPerDay)) <= maxEventsPerDay
   /\ Calendar.represented (Calendar.addEventIndicators events maxEventsPerDay)
      = Z.of_nat (length events))
  /\ (maxEventsPerDay <= 0 ->
      Calendar.addEventIndicators events maxEventsPerDay
      = [Calendar.More (Z.of_nat (length events) + 1 - maxEventsPerDay)]).
Proof.
  unfold Calendar.addEventIndicators. cbv zeta. split.
  - intros Hmax. rewrite length_app, length_map, length_take, represented_app, represented_shown,
      length_take.
    destruct (Z.min (Z.of_nat (length events)) (maxEventsPerDay - 1)
              <? Z.of_nat (length events)) eqn:Hmore.
    + apply Z.ltb_lt in Hmore. cbn [length Calendar.represented fold_right Calendar.standsFor].
      split; lia.
    + apply Z.ltb_ge in Hmore. cbn [length Calendar.represented fold_right]. split; lia.
  - intros Hmax.
    replace (Z.min (Z.of_nat (length events)) (maxEventsPerDay - 1))
      with (maxEventsPerDay - 1) by lia.
    assert ((maxEventsPerDay - 1 <? Z.of_nat (length events)) = true) as ->
      by (apply Z.ltb_lt; lia).
    replace (Z.to_nat (maxEventsPerDay - 1)) with 0%nat by lia.
    rewrite take_0. cbn [List.map app]. do 2 f_equal. lia.
Qed.

(** ** Distinct ids along a history *)

Lemma events_deleteEvent now eventId c :
  events (cacheOf (deleteEvent now eventId c)) = events c
  \/ exists index, findIndex eventId (events c) = Some index
       /\ events (cacheOf (deleteEvent now eventId c)) = delete index (events c).
Proof.
  unfold deleteEvent. destruct (findIndex eventId (events c)) as [index|]; [|left; reflexivity].
  destruct (events c !! index) as [event|]; [|left; reflexivity].
  right. exists index. split; [reflexivity|]. simpl. destruct (indexRemoveOf _ _ _); reflexivity.
Qed.

(** As long as no two adds share a clock reading, the clock does not go
    back and no request carries an id, the stored ids are pairwise distinct
    and each is the text of the clock reading of its add. *)
Theorem clocked_history_has_distinct_ids (t : Z) (c : DataCache) :
  Clocked t c ->
  NoDup (ids (events c))
  /\ forall e, In e (events c) ->
       exists t', t' < t /\ e !! "id" = Some (VStr (pretty t')).
Proof.
  induction 1 as [t c Hempty|t now eventData c Hc [IHn IHb] Hle Hnoid
                  |t now eventId updates c Hc [IHn IHb]
                  |t now eventId c Hc [IHn IHb]].
  - rewrite Hempty. split; [constructor|]. intros e [].
  - rewrite events_addEvent. split.
    + rewrite ids_app. unfold ids at 2. cbn [List.map]. rewrite newEvent_id, Hnoid.
      apply NoDup_app. split; [exact IHn|]. split; [|apply NoDup_singleton].
      intros x Hx Hin. apply list_elem_of_singleton in Hin. subst x.
      apply list_elem_of_In, in_map_iff in Hx as (e & Hid & He).
      destruct (IHb e He) as (t' & Hlt & Hid'). rewrite Hid' in Hid.
      injection Hid as Hid. apply (inj pretty) in Hid. lia.
    + intros e He. apply in_app_or in He as [He|[<-|[]]].
      * destruct (IHb e He) as (t' & Hlt & Hid). exists t'. split; [lia|exact Hid].
      * exists now. split; [lia|]. rewrite newEvent_id, Hnoid. reflexivity.
  - pose proof (ids_updateEvent now eventId updates c) as Hids.
    split; [rewrite Hids; exact IHn|].
    intros e He.
    assert (In (e !! "id") (ids (events c))) as Hin.
    { rewrite <- Hids. apply (in_map (fun e : Event => e !! "id")). exact He. }
    apply in_map_iff in Hin as (e0 & Hid & He0).
    destruct (IHb e0 He0) as (t' & Hlt & Hid'). exists t'. split; [exact Hlt|congruence].
  - destruct (events_deleteEvent now eventId c) as [->|(index & _ & ->)];
      [split; assumption|].
    split.
    + rewrite ids_delete. eapply sublist_NoDup; [exact IHn|apply sublist_delete].
    + intros e He. apply IHb. apply list_elem_of_In.
      eapply elem_of_sublist; [|apply sublist_delete].
      apply list_elem_of_In. exact He.
Qed.

(** ** The index against the store *)

Lemma indexPush_buckets idx e idx' :
  indexPush idx e = Some idx' ->
  exists key, dateKey e = Some key
    /\ default [] (idx' !! key) = default [] (idx !! key) ++ [e]
    /\ forall k, k <> key -> idx' !! k = idx !! k.
Proof.
  unfold indexPush. destruct (dateKey e) as [key|]; [|discriminate].
  destruct (readSlot idx key) as [l| |] eqn:Hslot; intros H;
    [injection H as <- | discriminate | injection H as <-];
    exists key; (split; [reflexivity|]).
  - apply readSlot_Own in Hslot. rewrite lookup_insert_eq, Hslot.
    split; [reflexivity|]. intros k Hk. apply lookup_insert_ne. congruence.
  - unfold readSlot in Hslot. destruct (idx !! key) eqn:Hl; [discriminate|].
    rewrite lookup_insert_eq. split; [reflexivity|].
    intros k Hk. apply lookup_insert_ne. congruence.
Qed.

Lemma files_push idx P u idx' :
  filesExactly idx P -> indexPush idx u = Some idx' -> filesExactly idx' (fun e => P e \/ e = u).
Proof.
  intros Hidx Hpush e k.
  destruct (indexPush_buckets _ _ _ Hpush) as (key & Hkey & Hsame & Hother).
  destruct (decide (k = key)) as [->|Hk].
  - rewrite Hsame, in_app_iff, (Hidx e key). simpl. split.
    + intros [[HP He]|[<-|[]]]; [split; [left; exact HP|exact He]|].
      split; [right; reflexivity|exact Hkey].
    + intros [[HP| ->] He]; [left; split; assumption|right; left; reflexivity].
  - rewrite Hother by exact Hk. rewrite (Hidx e k). split.
    + intros [HP He]. split; [left; exact HP|exact He].
    + intros [[HP| ->] He]; [split; assumption|]. congruence.
Qed.

Lemma files_remove idx P k eventId idx' :
  filesExactly idx P ->
  (forall e, P e -> e !! "id" = Some (VStr eventId) -> dateKey e = Some k) ->
  indexRemove idx k eventId = Some idx' ->
  filesExactly idx' (fun e => P e /\ e !! "id" <> Some (VStr eventId)).
Proof.
  intros Hidx Hkey Hrem e k'. destruct (indexRemove_buckets _ _ _ _ Hrem) as [Hsame Hother].
  assert (otherId eventId e = true <-> e !! "id" <> Some (VStr eventId)) as Hother_id.
  { unfold otherId. rewrite negb_true_iff, <- not_true_iff_false, is_string_spec. tauto. }
  destruct (decide (k' = k)) as [->|Hk].
  - rewrite Hsame, filter_In, (Hidx e k), Hother_id. tauto.
  - rewrite Hother by exact Hk. rewrite (Hidx e k'). split; [|tauto].
    intros [HP Hk']. split; [|exact Hk']. split; [exact HP|].
    intros Hid. apply Hk. specialize (Hkey e HP Hid). congruence.
Qed.

Lemma same_id_same_event (l : list Event) a b :
  NoDup (ids l) -> In a l -> In b l -> a !! "id" = b !! "id" -> a = b.
Proof.
  induction l as [|x l IH]; intros Hnodup Ha Hb Hid; [destruct Ha|].
  unfold ids in Hnodup. cbn [List.map] in Hnodup. apply NoDup_cons in Hnodup as [Hx Hl].
  assert (forall e, In e l -> x !! "id" <> e !! "id") as Hfresh.
  { intros e He Heq. apply Hx. rewrite Heq. apply list_elem_of_In.
    apply (in_map (fun e : Event => e !! "id")). exact He. }
  destruct Ha as [<-|Ha], Hb as [<-|Hb].
  - reflexivity.
  - exfalso. apply (Hfresh b Hb). exact Hid.
  - exfalso. apply (Hfresh a Ha). symmetry. exact Hid.
  - apply IH; assumption.
Qed.

Lemma in_delete_unique (l : list Event) : forall index event,
  NoDup (ids l) -> l !! index = Some event ->
  forall e, In e (delete index l) <-> In e l /\ e !! "id" <> event !! "id".
Proof.
  induction l as [|x l IH]; intros index event Hnodup Hl e; [discriminate|].
  pose proof Hnodup as Hall.
  unfold ids in Hnodup. cbn [List.map] in Hnodup. apply NoDup_cons in Hnodup as [Hx Hnd].
  assert (forall y, In y l -> x !! "id" <> y !! "id") as Hfresh.
  { intros y Hy Heq. apply Hx. rewrite Heq. apply list_elem_of_In.
    apply (in_map (fun e : Event => e !! "id")). exact Hy. }
  destruct index as [|index]; simpl in Hl.
  - injection Hl as <-. simpl. split.
    + intros He. split; [right; exact He|]. intros Heq. apply (Hfresh e He). symmetry. exact Heq.
    + intros [[<-|He] Hne]; [contradiction Hne; reflexivity|exact He].
  - assert (In event l) as Hev by (apply list_elem_of_In, list_elem_of_lookup; eauto).
    cbn [delete list_delete]. simpl. rewrite (IH index event Hnd Hl e). split.
    + intros [<-|[He Hne]]; [|split; [right; exact He|exact Hne]].
      split; [left; reflexivity|]. apply Hfresh. exact Hev.
    + intros [[<-|He] Hne]; [left; reflexivity|right; split; assumption].
Qed.

Lemma in_insert_unique (l : list Event) : forall index old u,
  NoDup (ids l) -> l !! index = Some old ->
  forall e, In e (<[index := u]> l) <-> (In e l /\ e !! "id" <> old !! "id") \/ e = u.
Proof.
  induction l as [|x l IH]; intros index old u Hnodup Hl e; [discriminate|].
  unfold ids in Hnodup. cbn [List.map] in Hnodup. apply NoDup_cons in Hnodup as [Hx Hnd].
  assert (forall y, In y l -> x !! "id" <> y !! "id") as Hfresh.
  { intros y Hy Heq. apply Hx. rewrite Heq. apply list_elem_of_In.
    apply (in_map (fun e : Event => e !! "id")). exact Hy. }
  destruct index as [|index]; simpl in Hl.
  - injection Hl as <-. simpl. split.
    + intros [<-|He]; [right; reflexivity|]. left. split; [right; exact He|].
      intros Heq. apply (Hfresh e He). symmetry. exact Heq.
    + intros [[[<-|He] Hne]| ->]; [contradiction Hne; reflexivity|right; exact He|left; reflexivity].
  - assert (In old l) as Hold by (apply list_elem_of_In, list_elem_of_lookup; eauto).
    simpl. rewrite (IH index old u Hnd Hl e). split.
    + intros [<-|[[He Hne]| ->]].
      * left. split; [left; reflexivity|]. apply Hfresh. exact Hold.
      * left. split; [right; exact He|exact Hne].
      * right. reflexivity.
    + intros [[[<-|He] Hne]| ->]; [left; reflexivity|right; left; split; assumption|right; right; reflexivity].
Qed.

(** From a state in which the index and the store hold the same events
    under pairwise distinct ids, an add, a delete and an update that changes
    the date lead, when they return, to a state in which they still hold
    the same events. *)
Theorem index_agreement_preserved (now : Z) (c : DataCache) :
  indexAgrees c -> NoDup (ids (events c)) ->
  (forall eventData e c',
     addEvent now eventData c = Returned e c' -> indexAgrees c')
  /\ (forall eventId c',
        deleteEvent now eventId c = Returned true c' -> indexAgrees c')
  /\ (forall eventId updates index oldEvent e c',
        findIndex eventId (events c) = Some index ->
        events c !! index = Some oldEvent ->
        dateChanged oldEvent updates = true ->
        updateEvent now eventId updates c = Returned (Some e) c' -> indexAgrees c').
Proof.
  intros Hagree Hnodup.
  assert (filesExactly (eventsByDate c) (fun e => In e (events c))) as Hfiles by exact Hagree.
  assert (forall eventId index event,
            findIndex eventId (events c) = Some index -> events c !! index = Some event ->
            event !! "id" = Some (VStr eventId)
            /\ forall e, In e (events c) -> e !! "id" = Some (VStr eventId) ->
                 dateKey e = dateKey event) as Hunique.
  { intros eventId index event Hfind Hev.
    destruct (findIndex_Some _ _ _ Hfind) as (ev & Hev' & Hid & _).
    assert (ev = event) as -> by congruence. split; [exact Hid|].
    intros e He Heid. f_equal.
    apply (same_id_same_event (events c)); [exact Hnodup|exact He| |congruence].
    apply list_elem_of_In, list_elem_of_lookup. eauto. }
  conjuncts.
  - intros eventData e c'. unfold addEvent.
    destruct (indexPush _ _) as [idx|] eqn:Hpush; [|discriminate].
    intros [= <- <-]. cbn [eventsByDate with_events] in Hpush.
    pose proof (files_push _ _ _ _ Hfiles Hpush) as H.
    intros x k. unfold bucket. cbn. rewrite (H x k), in_app_iff. simpl.
    intuition congruence.
  - intros eventId c'. unfold deleteEvent.
    destruct (findIndex eventId (events c)) as [index|] eqn:Hfind; [|discriminate].
    destruct (events c !! index) as [event|] eqn:Hev; [|discriminate].
    destruct (indexRemoveOf _ _ _) as [idx|] eqn:Hrem; [|discriminate].
    intros [= <-]. cbn [eventsByDate with_events] in Hrem.
    unfold indexRemoveOf in Hrem. destruct (dateKey event) as [key|] eqn:Hk; [|discriminate].
    destruct (Hunique _ _ _ Hfind Hev) as [Hid Hkey]. rewrite Hk in Hkey.
    pose proof (files_remove _ _ _ _ _ Hfiles Hkey Hrem) as H.
    intros x k. unfold bucket. cbn. rewrite (H x k).
    rewrite (in_delete_unique _ _ _ Hnodup Hev x), Hid. tauto.
  - intros eventId updates index oldEvent e c' Hfind Hold Hchanged.
    unfold updateEvent. rewrite Hfind, Hold, Hchanged.
    destruct (indexRemoveOf _ _ _) as [idx|] eqn:Hrem; [|discriminate].
    destruct (indexPush idx _) as [idx'|] eqn:Hpush; [|discriminate].
    intros [= <- <-]. cbn [eventsByDate with_events] in Hrem.
    unfold indexRemoveOf in Hrem. destruct (dateKey oldEvent) as [key|] eqn:Hk; [|discriminate].
    destruct (Hunique _ _ _ Hfind Hold) as [Hid Hkey]. rewrite Hk in Hkey.
    pose proof (files_remove _ _ _ _ _ Hfiles Hkey Hrem) as H1.
    pose proof (files_push _ _ _ _ H1 Hpush) as H2.
    intros x k. unfold bucket. cbn. rewrite (H2 x k).
    rewrite (in_insert_unique _ _ _ _ Hnodup Hold x), Hid. tauto.
Qed.
End Coverage.

(** ** The further properties at work *)

Lemma distinct_ids_preserved_witness :
  NoDup (ids (events oneEvent))
  /\ NoDup (ids (events (cacheOf (addEvent (t0 + 1) lunch oneEvent)))).
Proof.
  assert (NoDup (ids (events oneEvent))) as H by apply NoDup_singleton.
  split; [exact H|].
  destruct (distinct_ids_preserved oneEvent H) as [Hadd _].
  apply Hadd; [reflexivity|].
  intros [Heq|[]]. vm_compute in Heq. discriminate.
Defined.

Lemma clocked_history_has_distinct_ids_witness :
  Clocked (t0 + 1 + 1) syncThenLunch /\ NoDup (ids (events syncThenLunch)).
Proof.
  assert (Clocked (t0 + 1 + 1) syncThenLunch) as H.
  { unfold syncThenLunch, oneEvent.
    apply (clocked_add (t0 + 1)); [|lia|reflexivity].
    apply (clocked_add t0); [|lia|reflexivity].
    apply clocked_new. reflexivity. }
  split; [exact H|].
  exact (proj1 (clocked_history_has_distinct_ids _ _ H)).
Defined.

Lemma updateEvent_moves_between_buckets_witness :
  dateChanged (newEvent t0 sync) {["date" := VStr "2024-01-21"]} = true
  /\ exists c',
       updateEvent (t0 + 2) "1705700000000" {["date" := VStr "2024-01-21"]} syncThenLunch
         = Returned (Some (mergeEvent (t0 + 2) "1705700000000" (newEvent t0 sync)
                             {["date" := VStr "2024-01-21"]})) c'
       /\ bucket c' "2024-01-20" = []
       /\ titles (bucket c' "2024-01-21") = [Some (VStr "Lunch"); Some (VStr "Sync")].
Proof.
  split; [reflexivity|].
  destruct (updateEvent_moves_between_buckets (t0 + 2) "1705700000000"
              {["date" := VStr "2024-01-21"]} syncThenLunch 0 (newEvent t0 sync)
              "2024-01-20" "2024-01-21")
    as (c' & Hret & Hold & Hnew & _);
    [reflexivity|reflexivity|reflexivity|reflexivity|reflexivity|reflexivity|reflexivity
    |discriminate|].
  exists c'. split; [exact Hret|]. split.
  - exact (eq_trans Hold eq_refl).
  - exact (eq_trans (f_equal titles Hnew) eq_refl).
Defined.

Lemma updateEvent_without_date_keeps_index_witness :
  ({["title" := VStr "Sync v2"]} : Event) !! "date" = None
  /\ eventsByDate (cacheOf (updateEvent (t0 + 5) "1705700000000"
                              {["title" := VStr "Sync v2"]} oneEvent))
     = eventsByDate oneEvent.
Proof.
  split; [reflexivity|].
  apply (updateEvent_without_date_keeps_index (t0 + 5) "1705700000000"
           {["title" := VStr "Sync v2"]} oneEvent).
  reflexivity.
Defined.

(** From the empty cache: two adds, then the first event moved to the date
    of the second, and then deleted. *)
Lemma index_agreement_preserved_witness :
  indexAgrees emptyCache /\ indexAgrees oneEvent /\ indexAgrees syncThenLunch
  /\ indexAgrees (cacheOf (updateEvent (t0 + 2) "1705700000000"
                             {["date" := VStr "2024-01-21"]} syncThenLunch))
  /\ indexAgrees (cacheOf (deleteEvent (t0 + 2) "1705700000000" syncThenLunch)).
Proof.
  assert (indexAgrees emptyCache) as H0.
  { intros e k. split; [intros []|intros [[] _]]. }
  assert (indexAgrees oneEvent) as H1.
  { destruct (index_agreement_preserved t0 emptyCache H0 NoDup_nil_2) as [Hadd _].
    apply (Hadd sync (newEvent t0 sync) oneEvent). reflexivity. }
  assert (NoDup (ids (events oneEvent))) as Hn1 by apply NoDup_singleton.
  assert (indexAgrees syncThenLunch) as H2.
  { destruct (index_agreement_preserved (t0 + 1) oneEvent H1 Hn1) as [Hadd _].
    apply (Hadd lunch (newEvent (t0 + 1) lunch) syncThenLunch). reflexivity. }
  assert (NoDup (ids (events syncThenLunch))) as Hn2.
  { apply NoDup_cons. split; [|apply NoDup_singleton].
    intros Hin. apply list_elem_of_singleton in Hin. vm_compute in Hin. discriminate. }
  destruct (index_agreement_preserved (t0 + 2) syncThenLunch H2 Hn2)
    as (_ & Hdelete & Hupdate).
  split; [exact H0|]. split; [exact H1|]. split; [exact H2|]. split.
  - apply (Hupdate "1705700000000" {["date" := VStr "2024-01-21"]} 0%nat (newEvent t0 sync)
             (mergeEvent (t0 + 2) "1705700000000" (newEvent t0 sync)
                {["date" := VStr "2024-01-21"]})); reflexivity.
  - apply (Hdelete "1705700000000"). reflexivity.
Defined.

Lemma addEvent_without_date_breaks_export_witness :
  isStringValue (({["title" := VStr "Untimed"]} : Event) !! "date") = false
  /\ generateICal (t0 + 1) (cacheOf (addEvent t0 {["title" := VStr "Untimed"]} oneEvent))
     = None.
Proof.
  split; [reflexivity|].
  apply (addEvent_without_date_breaks_export t0 (t0 + 1) {["title" := VStr "Untimed"]} oneEvent).
  reflexivity.
Defined.



Lemma listEvents_page_witness :
  filteredEvents secondPage twoDays = Some (events twoDays)
  /\ exists page,
       listEvents secondPage twoDays = Some page
       /\ titles (page_events page) = [Some (VStr "Sync")]
       /\ page_total page = 2
       /\ page_hasMore page = false.
Proof.
  split; [reflexivity|].
  destruct (listEvents_page secondPage twoDays (events twoDays))
    as (page & Hpage & Hevents & Htotal & _ & Hmore);
    [reflexivity|simpl; lia|simpl; lia|].
  exists page. split; [exact Hpage|]. split; [rewrite Hevents; reflexivity|].
  split; [rewrite Htotal; reflexivity|].
  destruct (page_hasMore page); [|reflexivity].
  destruct Hmore as [Hmore _]. specialize (Hmore eq_refl).
  rewrite Hevents, Htotal in Hmore. vm_compute in Hmore. discriminate.
Defined.

Lemma searchEvents_finds_matching_events_witness :
  Forall (fun e => searchable e = true) (events twoDays)
  /\ option_map titles (searchEvents "SYNC" twoDays) = Some [Some (VStr "Sync")].
Proof.
  assert (Forall (fun e => searchable e = true) (events twoDays)) as H
    by (repeat constructor).
  split; [exact H|].
  destruct (searchEvents_finds_matching_events "SYNC" twoDays H) as [-> _].
  reflexivity.
Defined.

(** Ten minutes before the event, with a lead of 15 minutes. *)
Lemma getEventsNeedingReminders_minutes_witness :
  exists due,
    getEventsNeedingReminders (1705759200000 - 10 * 60000) 15 oneEvent = Some due
    /\ List.map (fun r : Event => r !! "minutesUntil") due = [Some (VNum 10)]
    /\ (length due <= length (events oneEvent))%nat.
Proof.
  exists [reminderOf (1705759200000 - 10 * 60000) (newEvent t0 sync) 1705759200000].
  assert (getEventsNeedingReminders (1705759200000 - 10 * 60000) 15 oneEvent
          = Some [reminderOf (1705759200000 - 10 * 60000) (newEvent t0 sync) 1705759200000])
    as Hdue by reflexivity.
  destruct (getEventsNeedingReminders_minutes _ _ _ _ Hdue) as (_ & _ & Hlen).
  split; [exact Hdue|]. split; [reflexivity|exact Hlen].
Defined.

Lemma deleteEvent_then_not_found_witness :
  NoDup (ids (events oneEvent))
  /\ exists c',
       deleteEvent (t0 + 1) "1705700000000" oneEvent = Returned true c'
       /\ findEvent "1705700000000" c' = None
       /\ deleteEvent (t0 + 2) "1705700000000" c' = Returned false c'.
Proof.
  assert (NoDup (ids (events oneEvent))) as H by apply NoDup_singleton.
  split; [exact H|].
  exists (cacheOf (deleteEvent (t0 + 1) "1705700000000" oneEvent)).
  assert (deleteEvent (t0 + 1) "1705700000000" oneEvent
          = Returned true (cacheOf (deleteEvent (t0 + 1) "1705700000000" oneEvent))) as Hdel
    by reflexivity.
  destruct (deleteEvent_then_not_found (t0 + 1) (t0 + 2) "1705700000000" oneEvent _ H Hdel)
    as (Hfind & Hagain & _).
  split; [exact Hdel|]. split; [exact Hfind|exact Hagain].
Defined.

Lemma changeMonth_steps_one_month_witness :
  Calendar.changeMonth 1 (11, 2024) = (0, 2025)
  /\ Calendar.changeMonth (- 1) (Calendar.changeMonth 1 (11, 2024)) = (11, 2024).
Proof.
  split; [reflexivity|].
  destruct (changeMonth_steps_one_month 1 11 2024) as (_ & _ & Hback); [lia|left; reflexivity|].
  exact Hback.
Defined.

(** ** Scenarios of the specification *)

Example toISOString_sample :
  toISOString 1705759200123 = "2024-01-20T14:00:00.123Z".
Proof. reflexivity. Qed.

Example ToString_samples :
  ToString (VArr [VStr "2024-01-20"]) = Some "2024-01-20"
  /\ ToString (VArr [VNum 1; VNull; VBool true]) = Some "1,,true"
  /\ ToString (VNum (-5)) = Some "-5"
  /\ ToString (VObj [("title", VStr "x")]) = Some "[object Object]"
  /\ ToString (VObj [("toString", VNum 1)]) = None
  /\ ToString (VArr [VStr "a"; VObj [("toString", VNull)]]) = None.
Proof. conjuncts; reflexivity. Qed.

Example isoParse_samples :
  isoParse "2024-01-20" = Some 1705708800000
  /\ isoParse "2024-01-20T14:00" = Some 1705759200000
  /\ isoParse "2024-1-20" = None
  /\ isoParse (isoDate 19742) = Some (19742 * msPerDay).
Proof. conjuncts; reflexivity. Qed.

(** Add, update the title, delete. *)
Example scenario_add_update_delete :
  let c1 := cacheOf (addEvent t0 sync emptyCache) in
  let c2 := cacheOf (updateEvent (t0 + 5) "1705700000000" {["title" := VStr "Sync v2"]} c1) in
  let c3 := cacheOf (deleteEvent (t0 + 9) "1705700000000" c2) in
  ids (events c1) = [Some (VStr "1705700000000")]
  /\ List.map (fun e : Event => (e !! "title", e !! "date", e !! "updatedAt")) (events c2)
     = [(Some (VStr "Sync v2"), Some (VStr "2024-01-20"),
         Some (VStr "2024-01-19T21:33:20.005Z"))]
  /\ events c3 = []
  /\ bucket c3 "2024-01-20" = []
  /\ updateEvent (t0 + 10) "1705700000000" ∅ c3 = Returned None c3.
Proof. conjuncts; [reflexivity..|vm_compute; reflexivity]. Qed.

(** One subscription for [event.created], one for everything: creating an
    event calls both, and only the second once the first is removed. *)
Example scenario_two_subscriptions :
  let c1 := snd (addWebhook t0 "a1" "https://one.example/hook" ["event.created"]
                   (Some "s3cret") emptyCache) in
  let c2 := snd (addWebhook t0 "b2" "https://two.example/hook" ["*"] None c1) in
  List.map req_url (webhookCalls (output (cacheOf (addEvent t0 sync c2))))
    = ["https://one.example/hook"; "https://two.example/hook"]
  /\ List.map req_url
       (webhookCalls (output (cacheOf (addEvent t0 sync (removeWebhook "a1" c2)))))
     = ["https://two.example/hook"]
  /\ List.map (fun r => length (req_headers r))
       (webhookCalls (output (cacheOf (addEvent t0 sync c2))))
     = [2%nat; 1%nat].
Proof. conjuncts; reflexivity. Qed.

(** With a lead of 15 minutes an event ten minutes ahead is due, one
    twenty minutes ahead is not. *)
Example scenario_reminder_window :
  let c := cacheOf (addEvent t0 sync emptyCache) in
  option_map (List.map (fun e : Event => (e !! "title", e !! "minutesUntil")))
    (getEventsNeedingReminders (1705759200000 - 10 * 60000) 15 c)
    = Some [(Some (VStr "Sync"), Some (VNum 10))]
  /\ getEventsNeedingReminders (1705759200000 - 20 * 60000) 15 c = Some []
  /\ getEventsNeedingReminders 1705759200000 15 c = Some [].
Proof. conjuncts; reflexivity. Qed.

(** A date that names an inherited property, and a date that does not
    convert to a property key: the event reaches the store, the index
    statement throws. *)
Example scenario_inherited_date :
  (exists c, addEvent t0 {["title" := VStr "x"; "date" := VStr "constructor"]} emptyCache
             = Threw c
             /\ length (events c) = 1%nat /\ eventsByDate c = ∅)
  /\ (exists c, addEvent t0 {["title" := VStr "x"; "date" := VObj [("toString", VNum 1)]]}
                  emptyCache
                = Threw c
                /\ length (events c) = 1%nat /\ eventsByDate c = ∅).
Proof. split; eexists; (split; [reflexivity|]); split; reflexivity. Qed.
